(** * A single-tape Turing machine simulator: shallow embedding and properties

    The development follows [turing_machine.py]: the class [TuringMachine]
    (constructor fields, [load_input], [step], [run], [get_tape_string]) and
    the two bundled machines, [example_binary_increment] and
    [example_palindrome_checker].

    Conventions of the embedding.
    - State names, tape symbols and head directions are Python [str] values,
      here [string]; a tape cell holds one [string].
    - Python integers ([head_position], [steps], [max_steps]) are [Z].
    - The transition dictionary is a [gmap] keyed by (state, symbol) pairs.
    - The sets handed to the constructor ([states], the alphabets,
      [accept_states], [reject_states]) are lists holding the elements in the
      order in which iteration yields them: [step] reads
      [list(self.reject_states)[0]], so the order is observable, and every
      theorem below holds whatever that order is.
    - A method mutates the object and either returns or raises; it is
      embedded as a function from the run state before the call to an
      [outcome] that carries the run state after the call. *)

From Stdlib Require Import ZArith String Ascii List Lia.
From stdpp Require Import base decidable option list gmap strings.

Local Open Scope Z_scope.
Local Open Scope string_scope.

(** ** Python list indexing *)

Module PyList.

(** [l[i]]: a negative index counts from the end, an index outside the list
    raises [IndexError] (here [None]). *)
Definition get {A : Type} (l : list A) (i : Z) : option A :=
  if bool_decide (0 <= i) then l !! Z.to_nat i
  else if bool_decide (0 <= Z.of_nat (length l) + i)
       then l !! Z.to_nat (Z.of_nat (length l) + i)
       else None.

(** [l[i] = x], same index rule. *)
Definition set {A : Type} (l : list A) (i : Z) (x : A) : option (list A) :=
  if bool_decide (0 <= i) then
    if bool_decide (i < Z.of_nat (length l))
    then Some (<[Z.to_nat i := x]> l) else None
  else if bool_decide (0 <= Z.of_nat (length l) + i)
       then Some (<[Z.to_nat (Z.of_nat (length l) + i) := x]> l)
       else None.

End PyList.

(** ** Python string helpers used by the simulator *)

Module PyStr.

(** [list(s)]: the characters of [s], each as a one-character string. *)
Fixpoint chars (s : string) : list string :=
  match s with
  | EmptyString => []
  | String c rest => String c EmptyString :: chars rest
  end.

(** [''.join(l)]. *)
Fixpoint join (l : list string) : string :=
  match l with
  | [] => EmptyString
  | x :: rest => String.append x (join rest)
  end.

Definition char_in (c : ascii) (set : string) : bool :=
  existsb (Ascii.eqb c) (list_ascii_of_string set).

(** [s.rstrip(set)]: drops the longest suffix of [s] made of characters
    that occur in [set]. *)
Fixpoint rstrip (s set : string) : string :=
  match s with
  | EmptyString => EmptyString
  | String c rest =>
      match rstrip rest set with
      | EmptyString => if char_in c set then EmptyString else String c EmptyString
      | kept => String c kept
      end
  end.

End PyStr.

(** ** The class [TuringMachine] *)

Module TuringMachine.

(** The constructor arguments, never written after construction. *)
Record Machine : Type := mkMachine {
  states : list string;
  alphabet : list string;
  tape_alphabet : list string;
  transitions : gmap (string * string) (string * string * string);
  initial_state : string;
  accept_states : list string;
  reject_states : list string;
  blank_symbol : string
}.

(** The attributes under the comment [# Machine state]. *)
Record RunState : Type := mkRunState {
  tape : list string;
  head_position : Z;
  current_state : string;
  steps : Z
}.

Inductive exn : Type := IndexError.

(** Result of a method call: the value returned or the exception raised,
    with the run state the call leaves behind. *)
Inductive outcome (A : Type) : Type :=
| Returned (a : A) (s : RunState)
| Raised (e : exn) (s : RunState).
Arguments Returned {A} a s.
Arguments Raised {A} e s.

Definition TM (A : Type) : Type := RunState -> outcome A.

Definition ret {A : Type} (a : A) : TM A := fun s => Returned a s.

Definition bind {A B : Type} (c : TM A) (k : A -> TM B) : TM B :=
  fun s =>
    match c s with
    | Returned a s' => k a s'
    | Raised e s' => Raised e s'
    end.

Definition state_after {A : Type} (o : outcome A) : RunState :=
  match o with
  | Returned _ s => s
  | Raised _ s => s
  end.

(** Attribute assignments. *)
Definition set_tape (t : list string) (s : RunState) : RunState :=
  mkRunState t (head_position s) (current_state s) (steps s).
Definition set_head_position (h : Z) (s : RunState) : RunState :=
  mkRunState (tape s) h (current_state s) (steps s).
Definition set_current_state (q : string) (s : RunState) : RunState :=
  mkRunState (tape s) (head_position s) q (steps s).
Definition set_steps (n : Z) (s : RunState) : RunState :=
  mkRunState (tape s) (head_position s) (current_state s) n.

(** The attributes right after [__init__]. *)
Definition init (m : Machine) : RunState :=
  mkRunState [] 0 (initial_state m) 0.

(** [load_input]: an empty input string is falsy and gives one blank cell. *)
Definition load_input (m : Machine) (input_string : string) : TM unit :=
  fun _ =>
    Returned tt
      (mkRunState
         (match input_string with
          | EmptyString => [blank_symbol m]
          | _ => PyStr.chars input_string
          end)
         0 (initial_state m) 0).

(** The first statement of [step], under [# Extend tape if head is at
    boundary]: one blank cell in front (and the head back on 0), or one
    blank cell at the end. *)
Definition extend_tape (m : Machine) (s : RunState) : RunState :=
  if bool_decide (head_position s < 0) then
    set_head_position 0 (set_tape (blank_symbol m :: tape s) s)
  else if bool_decide (head_position s >= Z.of_nat (length (tape s))) then
    set_tape (tape s ++ [blank_symbol m]) s
  else s.

(** [list(self.reject_states)[0] if self.reject_states else 'REJECT']. *)
Definition implicit_reject_state (m : Machine) : string :=
  match reject_states m with
  | q :: _ => q
  | [] => "REJECT"
  end.

(** [# Move head]: ['R'] and ['L'] move, anything else stays. *)
Definition move_head (direction : string) (s : RunState) : RunState :=
  if bool_decide (direction = "R") then set_head_position (head_position s + 1) s
  else if bool_decide (direction = "L") then set_head_position (head_position s - 1) s
  else s.

(** [step]: [true] when the machine continues, [false] when it has
    halted. *)
Definition step (m : Machine) : TM bool :=
  fun s0 =>
    let s := extend_tape m s0 in
    match PyList.get (tape s) (head_position s) with
    | None => Raised IndexError s
    | Some current_symbol =>
        if bool_decide (current_state s ∈ accept_states m) then Returned false s
        else if bool_decide (current_state s ∈ reject_states m) then Returned false s
        else
          let transition_key := (current_state s, current_symbol) in
          match transitions m !! transition_key with
          | None =>
              Returned false (set_current_state (implicit_reject_state m) s)
          | Some (new_state, write_symbol, direction) =>
              match PyList.set (tape s) (head_position s) write_symbol with
              | None => Raised IndexError s
              | Some t =>
                  let s := set_tape t s in
                  let s := set_current_state new_state s in
                  let s := move_head direction s in
                  Returned true (set_steps (steps s + 1) s)
              end
          end
    end.

(** [get_tape_string]: the cells joined, trailing blank characters
    stripped, and the blank symbol itself when nothing is left. *)
Definition get_tape_string (m : Machine) (s : RunState) : string :=
  match PyStr.rstrip (PyStr.join (tape s)) (blank_symbol m) with
  | EmptyString => blank_symbol m
  | tape_str => tape_str
  end.

(** How the [while] loop of [run] was left: its condition became false,
    or [step] returned [False] and the loop hit [break]. *)
Inductive loop_exit : Type := BudgetExhausted | Break.

(** The [while self.steps < max_steps] loop of [run].  The value records
    the exit taken (the Python loop itself has no value).  [fuel] bounds
    the number of iterations; [None] means the bound was too small. *)
Fixpoint run_loop (m : Machine) (max_steps : Z) (fuel : nat) (s : RunState)
  : option (outcome loop_exit) :=
  if bool_decide (steps s < max_steps) then
    match fuel with
    | O => None
    | S fuel' =>
        match step m s with
        | Returned true s' => run_loop m max_steps fuel' s'
        | Returned false s' => Some (Returned Break s')
        | Raised e s' => Some (Raised e s')
        end
    end
  else Some (Returned BudgetExhausted s).

Definition default_max_steps : Z := 10000.

(** [run] with [verbose=False] (the verbose branches only print): the
    triple (accepted, steps, final_tape).  The loop variant
    [max_steps - steps] gives the fuel. *)
Definition run (m : Machine) (input_string : string) (max_steps : Z)
  : RunState -> option (outcome (bool * Z * string)) :=
  fun s0 =>
    match load_input m input_string s0 with
    | Raised e s => Some (Raised e s)
    | Returned _ s1 =>
        match run_loop m max_steps (Z.to_nat max_steps) s1 with
        | None => None
        | Some (Raised e s) => Some (Raised e s)
        | Some (Returned _ s) =>
            let accepted := bool_decide (current_state s ∈ accept_states m) in
            let final_tape := get_tape_string m s in
            Some (Returned (accepted, steps s, final_tape) s)
        end
    end.

(** [n] successive calls of [step], return values in call order. *)
Fixpoint step_calls (m : Machine) (n : nat) : TM (list bool) :=
  match n with
  | O => ret []
  | S n' => bind (step m) (fun b => bind (step_calls m n') (fun bs => ret (b :: bs)))
  end.

End TuringMachine.

Import TuringMachine.

(** ** The bundled machines *)

Definition binary_increment : Machine :=
  mkMachine
    ["start"; "seek_end"; "carry"; "done"; "reject"]
    ["0"; "1"]
    ["0"; "1"; "_"]
    (list_to_map
       [ (("start", "0"), ("seek_end", "0", "R"));
         (("start", "1"), ("seek_end", "1", "R"));
         (("start", "_"), ("reject", "_", "N"));
         (("seek_end", "0"), ("seek_end", "0", "R"));
         (("seek_end", "1"), ("seek_end", "1", "R"));
         (("seek_end", "_"), ("carry", "_", "L"));
         (("carry", "0"), ("done", "1", "N"));
         (("carry", "1"), ("carry", "0", "L"));
         (("carry", "_"), ("done", "1", "N")) ])
    "start" ["done"] ["reject"] "_".

Definition palindrome_checker : Machine :=
  mkMachine
    ["start"; "check_0"; "check_1"; "move_left"; "move_right"; "accept"; "reject"]
    ["0"; "1"]
    ["0"; "1"; "X"; "_"]
    (list_to_map
       [ (("start", "0"), ("check_0", "X", "R"));
         (("start", "1"), ("check_1", "X", "R"));
         (("start", "X"), ("accept", "X", "N"));
         (("start", "_"), ("accept", "_", "N"));
         (("check_0", "0"), ("check_0", "0", "R"));
         (("check_0", "1"), ("check_0", "1", "R"));
         (("check_0", "X"), ("check_0", "X", "R"));
         (("check_0", "_"), ("move_left", "_", "L"));
         (("check_1", "0"), ("check_1", "0", "R"));
         (("check_1", "1"), ("check_1", "1", "R"));
         (("check_1", "X"), ("check_1", "X", "R"));
         (("check_1", "_"), ("move_left", "_", "L"));
         (("move_left", "0"), ("move_right", "X", "L"));
         (("move_left", "1"), ("move_right", "X", "L"));
         (("move_left", "X"), ("move_left", "X", "L"));
         (("move_right", "0"), ("move_right", "0", "L"));
         (("move_right", "1"), ("move_right", "1", "L"));
         (("move_right", "X"), ("move_right", "X", "L"));
         (("move_right", "_"), ("start", "_", "R")) ])
    "start" ["accept"] ["reject"] "_".


(** ** Predicates used in the statements *)

(** The current state is in one of the two halting sets. *)
Definition halted (m : Machine) (s : RunState) : Prop :=
  current_state s ∈ accept_states m ∨ current_state s ∈ reject_states m.

(** The symbol [step] reads: the cell under the head once the boundary
    extension has been applied. *)
Definition symbol_read (m : Machine) (s : RunState) : option string :=
  PyList.get (tape (extend_tape m s)) (head_position (extend_tape m s)).

(** [step] reaches the branch under [# No transition defined - implicit
    rejection]: the state is not halting and the key built from it and the
    symbol read is not in the dictionary. *)
Definition implicit_rejection_path (m : Machine) (s : RunState) : Prop :=
  ¬ halted m s ∧
  ∃ sym, symbol_read m s = Some sym ∧ transitions m !! (current_state s, sym) = None.

(** The head is on the tape or one cell off either end.  [load_input]
    establishes this and [step] keeps it. *)
Definition head_near_tape (s : RunState) : Prop :=
  -1 <= head_position s <= Z.of_nat (length (tape s)).

(** The head is an index of the tape. *)
Definition head_on_tape (s : RunState) : Prop :=
  0 <= head_position s < Z.of_nat (length (tape s)).

(** The run state [load_input] leaves, whatever it was before. *)
Definition loaded (m : Machine) (input_string : string) (s0 : RunState) : RunState :=
  state_after (load_input m input_string s0).

(** The transition dictionary loops between the two non-halting states [a]
    and [b] over the tape alphabet: from either state every tape-alphabet
    symbol has an entry that leads to the other state and writes a
    tape-alphabet symbol.  The blank symbol belongs to the tape alphabet and
    the machine starts in one of the two states. *)
Definition loops_between (m : Machine) (a b : string) : Prop :=
  (a ∉ accept_states m) ∧ (a ∉ reject_states m) ∧
  (b ∉ accept_states m) ∧ (b ∉ reject_states m) ∧
  (initial_state m = a ∨ initial_state m = b) ∧
  blank_symbol m ∈ tape_alphabet m ∧
  ∀ sym, sym ∈ tape_alphabet m →
    (∃ w d, transitions m !! (a, sym) = Some (b, w, d) ∧ w ∈ tape_alphabet m) ∧
    (∃ w d, transitions m !! (b, sym) = Some (a, w, d) ∧ w ∈ tape_alphabet m).

(** Every character of the input is a tape-alphabet symbol. *)
Definition input_over (m : Machine) (input_string : string) : Prop :=
  ∀ sym, sym ∈ PyStr.chars input_string → sym ∈ tape_alphabet m.

(** Invariant of a machine that loops between [a] and [b]: it is in one of
    the two states, the tape holds tape-alphabet symbols only, and the head
    is near the tape. *)
Definition in_loop (m : Machine) (a b : string) (s : RunState) : Prop :=
  (current_state s = a ∨ current_state s = b) ∧
  Forall (λ sym, sym ∈ tape_alphabet m) (tape s) ∧
  head_near_tape s.

(** ** Small machines used as concrete inputs *)

(** One transition that accepts while moving right, off the input. *)
Definition accept_moving_right : Machine :=
  mkMachine ["q0"; "acc"] ["a"] ["a"; "_"]
    (list_to_map [ (("q0", "a"), ("acc", "a", "R")) ])
    "q0" ["acc"] [] "_".

(** One transition that accepts while moving left, off the input. *)
Definition accept_moving_left : Machine :=
  mkMachine ["q0"; "acc"] ["a"] ["a"; "_"]
    (list_to_map [ (("q0", "a"), ("acc", "a", "L")) ])
    "q0" ["acc"] [] "_".

(** No transitions, no rejecting state, and a state named like the
    sentinel. *)
Definition sentinel_clash : Machine :=
  mkMachine ["q0"; "REJECT"] ["a"] ["a"; "_"] ∅ "q0" [] [] "_".

(** No transitions and two rejecting states. *)
Definition two_rejecting : Machine :=
  mkMachine ["q0"; "no"; "never"] ["a"] ["a"; "_"] ∅ "q0" [] ["no"; "never"] "_".

(** Two states that hand over to each other on every tape-alphabet
    symbol. *)
Definition ping_pong : Machine :=
  mkMachine ["ping"; "pong"] ["0"] ["0"; "_"]
    (list_to_map
       [ (("ping", "0"), ("pong", "0", "R"));
         (("ping", "_"), ("pong", "_", "L"));
         (("pong", "0"), ("ping", "0", "N"));
         (("pong", "_"), ("ping", "0", "L")) ])
    "ping" [] [] "_".

(** The run state [accept_moving_left] is in after its single transition on
    input ["a"]: accepting, head one cell left of the tape. *)
Definition accepted_off_left : RunState := mkRunState ["a"] (-1) "acc" 1.

(** A non-halting state of [two_rejecting] with the head one cell left of
    the tape. *)
Definition stuck_off_left : RunState := mkRunState ["a"] (-1) "q0" 3.

(** ** Predicates and data used in the further properties *)

(** Every cell of the tape holds a tape-alphabet symbol. *)
Definition tape_over_alphabet (m : Machine) (s : RunState) : Prop :=
  Forall (λ sym, sym ∈ tape_alphabet m) (tape s).

(** Every entry of the transition dictionary writes a tape-alphabet
    symbol. *)
Definition writes_in_alphabet (m : Machine) : Prop :=
  map_Forall (λ _ entry, entry.1.2 ∈ tape_alphabet m) (transitions m).

(** Every entry of the transition dictionary leads to a member of the state
    set. *)
Definition targets_in_states (m : Machine) : Prop :=
  map_Forall (λ _ entry, entry.1.1 ∈ states m) (transitions m).

(** The head movement a direction stands for. *)
Definition head_offset (direction : string) : Z :=
  if bool_decide (direction = "R") then 1
  else if bool_decide (direction = "L") then -1
  else 0.

(** All characters of [s] occur in [set]. *)
Definition all_chars_in (s set : string) : Prop :=
  Forall (λ c, PyStr.char_in c set = true) (list_ascii_of_string s).

(** No rejecting state, and a transition out of the state named like the
    sentinel. *)
Definition sentinel_resumes : Machine :=
  mkMachine ["q0"; "REJECT"] ["a"] ["a"; "_"]
    (list_to_map [ (("REJECT", "a"), ("q0", "a", "N")) ])
    "q0" [] [] "_".

(** [k] calls of [step] in a row that all return [True] lead from [s] to
    [s']. *)
Definition runs_true (m : Machine) (k : nat) (s s' : RunState) : Prop :=
  step_calls m k s = Returned (replicate k true) s'.

(** ** Binary numerals *)

(** The tape symbol of a binary digit. *)
Definition bit_symbol (b : bool) : string := if b then "1" else "0".

(** The cells of a numeral, most significant digit first. *)
Definition bit_cells (w : list bool) : list string := map bit_symbol w.

(** The numeral as an input string. *)
Definition bits_string (w : list bool) : string := PyStr.join (bit_cells w).

(** The number a numeral denotes, least significant digit first. *)
Fixpoint value_lsb (l : list bool) : Z :=
  match l with
  | [] => 0
  | b :: rest => (if b then 1 else 0) + 2 * value_lsb rest
  end.

(** The number a numeral denotes, most significant digit first. *)
Definition bits_value (w : list bool) : Z := value_lsb (rev w).

(** Adding one, least significant digit first: trailing ones become zeros
    and the first zero, or a new leading digit, becomes one. *)
Fixpoint incr_lsb (l : list bool) : list bool :=
  match l with
  | [] => [true]
  | false :: rest => true :: rest
  | true :: rest => false :: incr_lsb rest
  end.

(** Adding one, most significant digit first. *)
Definition increment (w : list bool) : list bool := rev (incr_lsb (rev w)).

(** ** The self-test of [example_palindrome_checker] *)

(** [test[::-1]]. *)
Definition str_reverse (test : string) : string :=
  string_of_list_ascii (rev (list_ascii_of_string test)).

(** [is_palindrome = test == test[::-1]]. *)
Definition is_palindrome (test : string) : bool :=
  bool_decide (test = str_reverse test).

(** The body of the loop over [test_cases], without the printing: [true]
    stands for the status [CORRECT] ([accepted == is_palindrome]), [false]
    for [WRONG].  [tm.run] is called with the default budget. *)
Definition self_test_status (test : string) (s0 : RunState) : option (outcome bool) :=
  match run palindrome_checker test default_max_steps s0 with
  | None => None
  | Some (Raised e s) => Some (Raised e s)
  | Some (Returned (accepted, _, _) s) =>
      Some (Returned (Bool.eqb accepted (is_palindrome test)) s)
  end.

(** The list [test_cases] of [example_palindrome_checker]. *)
Definition palindrome_test_cases : list string :=
  ["1"; "11"; "101"; "1001"; "1101"; "11011"; "10101"].

(** ** Basic facts *)

Section Indexing.
Context {A : Type}.
Implicit Types (l : list A) (i : Z).

Lemma get_in_range l i :
  0 <= i < Z.of_nat (length l) → ∃ x, PyList.get l i = Some x ∧ l !! Z.to_nat i = Some x.
Proof.
  intros Hi. unfold PyList.get.
  rewrite bool_decide_eq_true_2 by lia.
  destruct (lookup_lt_is_Some_2 l (Z.to_nat i)) as [x Hx]; [lia|].
  exists x. by rewrite Hx.
Qed.

Lemma get_nonneg_Some l i x :
  0 <= i → PyList.get l i = Some x → i < Z.of_nat (length l) ∧ l !! Z.to_nat i = Some x.
Proof.
  intros Hi. unfold PyList.get. rewrite bool_decide_eq_true_2 by lia.
  intros Hx. split; [|done]. apply lookup_lt_Some in Hx. lia.
Qed.

Lemma get_past_end l i : Z.of_nat (length l) <= i → PyList.get l i = None.
Proof.
  intros Hi. unfold PyList.get. rewrite bool_decide_eq_true_2 by lia.
  apply lookup_ge_None. lia.
Qed.

Lemma set_in_range l i x :
  0 <= i < Z.of_nat (length l) → PyList.set l i x = Some (<[Z.to_nat i := x]> l).
Proof.
  intros Hi. unfold PyList.set. by rewrite !bool_decide_eq_true_2 by lia.
Qed.
End Indexing.

Section Extension.
Variable m : Machine.
Implicit Types s : RunState.

Lemma extend_tape_steps s : steps (extend_tape m s) = steps s.
Proof. unfold extend_tape. by repeat case_bool_decide. Qed.

Lemma extend_tape_current_state s : current_state (extend_tape m s) = current_state s.
Proof. unfold extend_tape. by repeat case_bool_decide. Qed.

Lemma extend_tape_head_nonneg s : 0 <= head_position (extend_tape m s).
Proof. unfold extend_tape. repeat case_bool_decide; simpl; lia. Qed.

Lemma extend_tape_on_tape s :
  head_position s <= Z.of_nat (length (tape s)) → head_on_tape (extend_tape m s).
Proof.
  unfold extend_tape, head_on_tape.
  repeat case_bool_decide; simpl; rewrite ?length_app; simpl; lia.
Qed.

Lemma extend_tape_id s : head_on_tape s → extend_tape m s = s.
Proof.
  unfold extend_tape, head_on_tape. intros Hs.
  by rewrite !bool_decide_eq_false_2 by lia.
Qed.

Lemma extend_tape_length s :
  (length (tape (extend_tape m s)) <= S (length (tape s)))%nat.
Proof.
  unfold extend_tape.
  repeat case_bool_decide; simpl; rewrite ?length_app; simpl; lia.
Qed.

Lemma extend_tape_halted s : halted m (extend_tape m s) ↔ halted m s.
Proof. unfold halted. by rewrite extend_tape_current_state. Qed.

(** What the extension does to tape and head, by position of the head. *)
Lemma extend_tape_cases s :
  (head_position s < 0 →
     tape (extend_tape m s) = blank_symbol m :: tape s ∧
     head_position (extend_tape m s) = 0) ∧
  (0 <= head_position s < Z.of_nat (length (tape s)) →
     tape (extend_tape m s) = tape s ∧
     head_position (extend_tape m s) = head_position s) ∧
  (Z.of_nat (length (tape s)) <= head_position s →
     tape (extend_tape m s) = (tape s ++ [blank_symbol m])%list ∧
     head_position (extend_tape m s) = head_position s).
Proof.
  unfold extend_tape.
  repeat split; intros; repeat case_bool_decide; simpl; (done || lia).
Qed.

Lemma symbol_read_near s :
  head_position s <= Z.of_nat (length (tape s)) → is_Some (symbol_read m s).
Proof.
  intros Hs. unfold symbol_read.
  destruct (get_in_range (tape (extend_tape m s)) (head_position (extend_tape m s)))
    as (x & Hx & _); [by apply extend_tape_on_tape|].
  by exists x.
Qed.
End Extension.

(** ** The three exits of [step] *)

Section StepCases.
Variable m : Machine.
Implicit Types s : RunState.

(** In a halting state [step] returns [False] right after the boundary
    extension. *)
Lemma step_halted s :
  halted m s → head_position s <= Z.of_nat (length (tape s)) →
  step m s = Returned false (extend_tape m s).
Proof.
  intros Hh Hs. destruct (symbol_read_near m s Hs) as [sym Hsym].
  unfold symbol_read in Hsym. unfold step. cbv zeta. rewrite Hsym.
  rewrite extend_tape_current_state.
  destruct Hh as [Ha|Hr].
  - by rewrite (bool_decide_eq_true_2 _ Ha).
  - rewrite (bool_decide_eq_true_2 _ Hr). by case_bool_decide.
Qed.

(** The implicit-rejection branch only assigns [current_state]. *)
Lemma step_implicit_rejection s :
  implicit_rejection_path m s →
  step m s =
  Returned false (set_current_state (implicit_reject_state m) (extend_tape m s)).
Proof.
  intros [Hnh (sym & Hsym & Hkey)].
  unfold symbol_read in Hsym. unfold step. cbv zeta. rewrite Hsym.
  rewrite extend_tape_current_state, Hkey.
  unfold halted in Hnh.
  rewrite !bool_decide_eq_false_2; [done|tauto|tauto].
Qed.

Lemma implicit_reject_state_spec :
  implicit_reject_state m ∈ reject_states m ∨
  (reject_states m = [] ∧ implicit_reject_state m = "REJECT").
Proof.
  unfold implicit_reject_state. destruct (reject_states m) as [|q qs].
  - by right.
  - left. apply list_elem_of_here.
Qed.

Lemma move_head_spec d s :
  tape (move_head d s) = tape s ∧
  current_state (move_head d s) = current_state s ∧
  steps (move_head d s) = steps s ∧
  head_position s - 1 <= head_position (move_head d s) <= head_position s + 1.
Proof. unfold move_head. repeat case_bool_decide; simpl; repeat split; lia. Qed.

(** With the head on the tape or one cell off it, [step] returns, leaves
    the head in the same situation, grows the tape by at most one cell and
    counts exactly the calls that return [True]. *)
Lemma step_near_tape s :
  head_near_tape s →
  ∃ b s', step m s = Returned b s' ∧ head_near_tape s' ∧
          (length (tape s') <= S (length (tape s)))%nat ∧
          steps s' = steps s + (if b then 1 else 0).
Proof.
  intros [Hlo Hhi].
  pose proof (extend_tape_on_tape m s Hhi) as Hon.
  pose proof (extend_tape_length m s) as Hlen.
  pose proof (extend_tape_steps m s) as Hst.
  destruct (get_in_range _ _ Hon) as (sym & Hsym & _).
  unfold step. cbv zeta. rewrite Hsym.
  set (e := extend_tape m s) in *.
  assert (Hnear : head_near_tape e) by (unfold head_near_tape, head_on_tape in *; lia).
  case_bool_decide; [exists false, e; repeat split; (apply Hnear || lia)|].
  case_bool_decide; [exists false, e; repeat split; (apply Hnear || lia)|].
  destruct (transitions m !! (current_state e, sym)) as [[[q w] d]|].
  - rewrite (set_in_range _ _ w Hon).
    eexists true, _. split; [reflexivity|].
    destruct (move_head_spec d
                (set_current_state q (set_tape (<[Z.to_nat (head_position e) := w]> (tape e)) e)))
      as (Ht & _ & Hs & Hh).
    unfold head_near_tape, head_on_tape in *. simpl in *.
    rewrite Ht, Hs. rewrite length_insert. lia.
  - exists false, (set_current_state (implicit_reject_state m) e).
    repeat split; simpl; (apply Hnear || lia).
Qed.
End StepCases.

(** ** Sequences of [step] calls *)

Section StepCalls.
Variable m : Machine.
Implicit Types s : RunState.

Lemma step_calls_S n s :
  step_calls m (S n) s =
  match step m s with
  | Returned b s' =>
      match step_calls m n s' with
      | Returned bs s'' => Returned (b :: bs) s''
      | Raised e s'' => Raised e s''
      end
  | Raised e s' => Raised e s'
  end.
Proof. reflexivity. Qed.

(** Any number of calls from a state with the head near the tape: all
    return, and the tape has grown by at most one cell per call. *)
Lemma step_calls_near_tape n s :
  head_near_tape s →
  ∃ bs s', step_calls m n s = Returned bs s' ∧ head_near_tape s' ∧
           length bs = n ∧
           (length (tape s') <= length (tape s) + n)%nat.
Proof.
  revert s. induction n as [|n IH]; intros s Hs.
  - exists [], s. repeat split; try apply Hs. simpl; lia.
  - destruct (step_near_tape m s Hs) as (b & s1 & Hstep & Hs1 & Hlen1 & _).
    destruct (IH s1 Hs1) as (bs & s2 & Hcalls & Hs2 & Hbs & Hlen2).
    exists (b :: bs), s2. rewrite step_calls_S, Hstep, Hcalls.
    repeat split; try apply Hs2; simpl; lia.
Qed.

(** Calls made in a halting state: the first applies the boundary
    extension, and the state it leaves is a fixed point of [step]. *)
Lemma step_calls_halted n s :
  halted m s → head_position s <= Z.of_nat (length (tape s)) →
  step_calls m (S n) s = Returned (replicate (S n) false) (extend_tape m s).
Proof.
  intros Hh Hs. revert s Hh Hs. induction n as [|n IH]; intros s Hh Hs.
  - rewrite step_calls_S, (step_halted m s Hh Hs). reflexivity.
  - rewrite step_calls_S, (step_halted m s Hh Hs).
    pose proof (extend_tape_on_tape m s Hs) as Hon.
    rewrite IH; [|by apply extend_tape_halted|unfold head_on_tape in Hon; lia].
    by rewrite (extend_tape_id m _ Hon).
Qed.
End StepCalls.

Lemma loaded_near_tape m input s0 : head_near_tape (loaded m input s0).
Proof. unfold head_near_tape, loaded. simpl. lia. Qed.

Lemma chars_as_map input :
  PyStr.chars input = map (λ c, String c EmptyString) (list_ascii_of_string input).
Proof. induction input as [|c rest IH]; simpl; [done|by rewrite IH]. Qed.

Lemma join_chars input : PyStr.join (PyStr.chars input) = input.
Proof. induction input as [|c rest IH]; simpl; [done|by rewrite IH]. Qed.

(** ** The loop of [run] *)

Section RunLoop.
Variable m : Machine.
Variable max_steps : Z.
Implicit Types s : RunState.

(** With fuel at least the loop variant [max_steps - steps] the loop
    returns.  It has made [k] calls that returned [True]; then either the
    budget was used up, or one more call returned [False]. *)
Lemma run_loop_spec fuel s :
  head_near_tape s → max_steps - steps s <= Z.of_nat fuel →
  ∃ how s' k sk,
    run_loop m max_steps fuel s = Some (Returned how s') ∧
    head_near_tape s' ∧
    step_calls m k s = Returned (replicate k true) sk ∧
    steps sk = steps s + Z.of_nat k ∧
    match how with
    | BudgetExhausted => s' = sk ∧ max_steps <= steps s'
    | Break =>
        steps sk < max_steps ∧ step m sk = Returned false s' ∧ steps s' = steps sk
    end.
Proof.
  revert s. induction fuel as [|fuel IH]; intros s Hs Hfuel.
  - exists BudgetExhausted, s, 0%nat, s. simpl.
    rewrite bool_decide_eq_false_2 by lia.
    repeat split; try apply Hs; lia.
  - cbn [run_loop]. case_bool_decide as Hlt.
    + destruct (step_near_tape m s Hs) as (b & s1 & Hstep & Hs1 & _ & Hst).
      rewrite Hstep. destruct b.
      * destruct (IH s1 Hs1) as (how & s' & k & sk & Hloop & Hs' & Hcalls & Hsk & Hhow);
          [lia|].
        exists how, s', (S k), sk. rewrite Hloop, step_calls_S, Hstep, Hcalls.
        repeat split; try apply Hs'; [simpl; lia|done].
      * exists Break, s1, 0%nat, s. simpl.
        repeat split; try apply Hs1; (lia || done).
    + exists BudgetExhausted, s, 0%nat, s. simpl.
      repeat split; try apply Hs; lia.
Qed.

(** [run] never runs out of fuel and never raises. *)
Lemma run_total input s0 :
  ∃ how s,
    run_loop m max_steps (Z.to_nat max_steps) (loaded m input s0)
      = Some (Returned how s) ∧
    run m input max_steps s0 =
      Some (Returned (bool_decide (current_state s ∈ accept_states m),
                      steps s, get_tape_string m s) s) ∧
    match how with
    | BudgetExhausted => max_steps <= steps s
    | Break => steps s < max_steps
    end.
Proof.
  destruct (run_loop_spec (Z.to_nat max_steps) (loaded m input s0))
    as (how & s & k & sk & Hloop & _ & _ & Hsk & Hhow);
    [apply loaded_near_tape|simpl; lia|].
  exists how, s. split; [done|]. split.
  - unfold run. unfold loaded in Hloop. simpl in Hloop |- *. by rewrite Hloop.
  - destruct how; [tauto|lia].
Qed.
End RunLoop.

(** ** Machines that loop between two states *)

Section Looping.
Variable m : Machine.
Variables a b : string.
Hypothesis Hloop : loops_between m a b.
Implicit Types s : RunState.

Lemma extend_tape_in_loop s : in_loop m a b s → in_loop m a b (extend_tape m s).
Proof.
  destruct Hloop as (_ & _ & _ & _ & _ & Hblank & _).
  intros (Hq & Htape & Hnear). unfold in_loop.
  rewrite extend_tape_current_state. split; [done|].
  pose proof (extend_tape_on_tape m s (proj2 Hnear)) as Hon.
  split; [|unfold head_near_tape, head_on_tape in *; lia].
  unfold extend_tape. repeat case_bool_decide; simpl; [| |done].
  - by apply Forall_cons.
  - apply Forall_app. split; [done|]. by apply Forall_cons.
Qed.

Lemma step_in_loop s :
  in_loop m a b s →
  ∃ s', step m s = Returned true s' ∧ in_loop m a b s' ∧ steps s' = steps s + 1.
Proof.
  intros Hs. pose proof (extend_tape_in_loop s Hs) as (Hq & Htape & Hnear).
  pose proof (extend_tape_on_tape m s (proj2 (proj2 (proj2 Hs)))) as Hon.
  pose proof (extend_tape_steps m s) as Hst.
  destruct (get_in_range _ _ Hon) as (sym & Hsym & Hlook).
  assert (Hin : sym ∈ tape_alphabet m).
  { by apply (Forall_lookup_1 _ _ _ _ Htape Hlook). }
  destruct Hloop as (Haa & Har & Hba & Hbr & _ & _ & Htrans).
  destruct (Htrans sym Hin) as [(wa & da & Hta & Hwa) (wb & db & Htb & Hwb)].
  unfold step. cbv zeta. rewrite Hsym.
  set (e := extend_tape m s) in *.
  destruct Hq as [Hq|Hq]; rewrite Hq.
  - rewrite !bool_decide_eq_false_2 by done. rewrite Hta.
    rewrite (set_in_range _ _ wa Hon). eexists. split; [reflexivity|].
    destruct (move_head_spec da
                (set_current_state b (set_tape (<[Z.to_nat (head_position e) := wa]> (tape e)) e)))
      as (Ht & Hc & Hs' & Hh).
    unfold in_loop, head_near_tape, head_on_tape in *. simpl in *.
    rewrite Ht, Hc, Hs'. repeat split; [by right|by apply Forall_insert|..];
      rewrite ?length_insert; lia.
  - rewrite !bool_decide_eq_false_2 by done. rewrite Htb.
    rewrite (set_in_range _ _ wb Hon). eexists. split; [reflexivity|].
    destruct (move_head_spec db
                (set_current_state a (set_tape (<[Z.to_nat (head_position e) := wb]> (tape e)) e)))
      as (Ht & Hc & Hs' & Hh).
    unfold in_loop, head_near_tape, head_on_tape in *. simpl in *.
    rewrite Ht, Hc, Hs'. repeat split; [by left|by apply Forall_insert|..];
      rewrite ?length_insert; lia.
Qed.

(** The loop of [run] uses up the whole budget. *)
Lemma run_loop_in_loop max_steps fuel s :
  in_loop m a b s → steps s <= max_steps → max_steps - steps s <= Z.of_nat fuel →
  ∃ s', run_loop m max_steps fuel s = Some (Returned BudgetExhausted s') ∧
        in_loop m a b s' ∧ steps s' = max_steps.
Proof.
  revert s. induction fuel as [|fuel IH]; intros s Hs Hle Hfuel.
  - exists s. simpl. rewrite bool_decide_eq_false_2 by lia.
    repeat split; try apply Hs; lia.
  - cbn [run_loop]. case_bool_decide as Hlt.
    + destruct (step_in_loop s Hs) as (s1 & Hstep & Hs1 & Hst).
      rewrite Hstep. apply IH; [done|lia..].
    + exists s. repeat split; try apply Hs; lia.
Qed.

Lemma loaded_in_loop input s0 : input_over m input → in_loop m a b (loaded m input s0).
Proof.
  destruct Hloop as (_ & _ & _ & _ & Hinit & Hblank & _).
  intros Hinput. unfold in_loop. split; [exact Hinit|].
  split; [|apply loaded_near_tape].
  unfold loaded. simpl. destruct input as [|c rest].
  - by apply Forall_cons.
  - apply Forall_forall. exact Hinput.
Qed.

Lemma in_loop_not_accepting s : in_loop m a b s → current_state s ∉ accept_states m.
Proof.
  destruct Hloop as (Haa & _ & Hba & _).
  intros ([Hq|Hq] & _); by rewrite Hq.
Qed.

Lemma run_in_loop input max_steps s0 :
  input_over m input → 0 <= max_steps →
  ∃ s, run m input max_steps s0
       = Some (Returned (false, max_steps, get_tape_string m s) s).
Proof.
  intros Hinput Hmax.
  destruct (run_loop_in_loop max_steps (Z.to_nat max_steps) (loaded m input s0))
    as (s & Hrun & Hs & Hst);
    [by apply loaded_in_loop|simpl; lia|simpl; lia|].
  exists s. unfold run. unfold loaded in Hrun. simpl in Hrun |- *.
  rewrite Hrun, Hst.
  by rewrite (bool_decide_eq_false_2 _ (in_loop_not_accepting s Hs)).
Qed.
End Looping.

(** ** Properties of [load_input] and [step] *)

(** C9. Whatever the run state was, [load_input] leaves the tape holding the
    input's characters, one per cell (a single blank cell for the empty
    input), the head on cell 0, the initial state as current state and a
    step counter of 0. *)
Theorem load_input_resets (m : Machine) (input : string) (s0 : RunState) :
  ∃ s, load_input m input s0 = Returned tt s ∧
       tape s = (if bool_decide (input = "") then [blank_symbol m]
                 else map (λ c, String c "") (list_ascii_of_string input)) ∧
       head_position s = 0 ∧
       current_state s = initial_state m ∧
       steps s = 0.
Proof.
  eexists. split; [reflexivity|]. simpl. repeat split.
  destruct input as [|c rest]; [done|].
  rewrite bool_decide_eq_false_2 by done. apply chars_as_map.
Qed.

(** C1, as stated, fails: [accept_moving_left] on input ["a"] enters its
    accepting state with the head one cell left of the tape, and the next
    call of [step] returns [False] only after the boundary extension has put
    a blank cell in front of the tape. *)
Lemma halted_step_extends_tape :
  step accept_moving_left (loaded accept_moving_left "a" (init accept_moving_left))
    = Returned true accepted_off_left ∧
  current_state accepted_off_left ∈ accept_states accept_moving_left ∧
  step accept_moving_left accepted_off_left
    = Returned false (mkRunState ["_"; "a"] 0 "acc" 1) ∧
  tape (state_after (step accept_moving_left accepted_off_left))
    ≠ tape accepted_off_left.
Proof. repeat split; try reflexivity; [compute_done|discriminate]. Qed.

(** C1, amended. In a halting state with the head at most one cell past the
    end of the tape, every further call of [step] returns [False]; the calls
    leave the current state and the step counter alone, and change tape and
    head only through the boundary extension of the first of them: nothing
    when the head is on the tape, one blank cell in front (head back on 0)
    when it is negative, one blank cell at the end when it is one past the
    end. *)
Theorem halted_step_absorbing (m : Machine) (s : RunState) (n : nat) :
  halted m s → head_position s <= Z.of_nat (length (tape s)) →
  step_calls m (S n) s = Returned (replicate (S n) false) (extend_tape m s) ∧
  current_state (extend_tape m s) = current_state s ∧
  steps (extend_tape m s) = steps s ∧
  (0 <= head_position s < Z.of_nat (length (tape s)) → extend_tape m s = s) ∧
  (head_position s < 0 →
     tape (extend_tape m s) = blank_symbol m :: tape s ∧
     head_position (extend_tape m s) = 0) ∧
  (head_position s = Z.of_nat (length (tape s)) →
     tape (extend_tape m s) = (tape s ++ [blank_symbol m])%list ∧
     head_position (extend_tape m s) = head_position s).
Proof.
  intros Hh Hs.
  destruct (extend_tape_cases m s) as (Hneg & _ & Hend).
  split_and!.
  - by apply step_calls_halted.
  - apply extend_tape_current_state.
  - apply extend_tape_steps.
  - apply extend_tape_id.
  - exact Hneg.
  - intros He. apply Hend. lia.
Qed.

Lemma halted_step_absorbing_witness :
  step_calls accept_moving_left 3 accepted_off_left
    = Returned [false; false; false] (mkRunState ["_"; "a"] 0 "acc" 1).
Proof.
  refine (proj1 (halted_step_absorbing accept_moving_left accepted_off_left 2 _ _)).
  - left. compute_done.
  - simpl. lia.
Defined.

(** C2. In a state that is in neither halting set, when the key made of the
    current state and the symbol under the head after the boundary extension
    is not in the transition dictionary, [step] returns [False], the current
    state becomes a member of the rejecting set, or ["REJECT"] when that set
    is empty, and the step counter keeps its value. *)
Theorem implicit_rejection_halts (m : Machine) (s : RunState) (sym : string) :
  ¬ halted m s →
  symbol_read m s = Some sym →
  transitions m !! (current_state s, sym) = None →
  ∃ s', step m s = Returned false s' ∧
        (current_state s' ∈ reject_states m ∨
         (reject_states m = [] ∧ current_state s' = "REJECT")) ∧
        steps s' = steps s.
Proof.
  intros Hnh Hsym Hkey. eexists. split.
  - apply step_implicit_rejection. split; [done|by exists sym].
  - split; [apply implicit_reject_state_spec|apply extend_tape_steps].
Qed.

Lemma implicit_rejection_halts_witness :
  ∃ s', step two_rejecting stuck_off_left = Returned false s' ∧
        (current_state s' ∈ reject_states two_rejecting ∨
         (reject_states two_rejecting = [] ∧ current_state s' = "REJECT")) ∧
        steps s' = steps stuck_off_left.
Proof.
  apply (implicit_rejection_halts two_rejecting stuck_off_left "_").
  - unfold halted. compute_done.
  - reflexivity.
  - reflexivity.
Defined.

(** C10. On the implicit-rejection path [step] returns [False] with the step
    counter unchanged and the current state replaced; tape and head are
    those the boundary extension left: unchanged when the head was on the
    tape, one blank cell in front with the head on 0 when it was negative,
    one blank cell at the end when it was past the end. *)
Theorem implicit_rejection_frame (m : Machine) (s : RunState) :
  implicit_rejection_path m s →
  ∃ s', step m s = Returned false s' ∧
        steps s' = steps s ∧
        current_state s' = implicit_reject_state m ∧
        (0 <= head_position s < Z.of_nat (length (tape s)) →
           tape s' = tape s ∧ head_position s' = head_position s) ∧
        (head_position s < 0 →
           tape s' = blank_symbol m :: tape s ∧ head_position s' = 0) ∧
        (Z.of_nat (length (tape s)) <= head_position s →
           tape s' = (tape s ++ [blank_symbol m])%list ∧
           head_position s' = head_position s).
Proof.
  intros Hpath. eexists. split; [by apply step_implicit_rejection|].
  destruct (extend_tape_cases m s) as (Hneg & Hmid & Hend).
  simpl. split_and!; [apply extend_tape_steps|done|exact Hmid|exact Hneg|exact Hend].
Qed.

Lemma implicit_rejection_frame_witness :
  ∃ s', step two_rejecting stuck_off_left = Returned false s' ∧
        steps s' = 3 ∧ current_state s' = "no" ∧
        tape s' = ["_"; "a"] ∧ head_position s' = 0.
Proof.
  assert (Hpath : implicit_rejection_path two_rejecting stuck_off_left).
  { split; [unfold halted; compute_done|]. by exists "_". }
  destruct (implicit_rejection_frame two_rejecting stuck_off_left Hpath)
    as (s' & Hstep & Hsteps & Hstate & _ & Hneg & _).
  exists s'. destruct Hneg as [Htape Hhead]; [simpl; lia|]. done.
Defined.

(** C7, as stated, fails: nothing keeps a machine from naming one of its
    states ["REJECT"]. [sentinel_clash] has an empty rejecting set, and the
    state the implicit rejection assigns is a member of its state set. *)
Lemma sentinel_is_a_state :
  reject_states sentinel_clash = [] ∧
  implicit_rejection_path sentinel_clash (loaded sentinel_clash "a" (init sentinel_clash)) ∧
  step sentinel_clash (loaded sentinel_clash "a" (init sentinel_clash))
    = Returned false (mkRunState ["a"] 0 "REJECT" 0) ∧
  current_state
    (state_after (step sentinel_clash (loaded sentinel_clash "a" (init sentinel_clash))))
    ∈ states sentinel_clash.
Proof.
  repeat split; try reflexivity.
  - unfold halted. compute_done.
  - by exists "a".
  - compute_done.
Qed.

(** C7, amended. With an empty rejecting set the implicit-rejection path
    assigns the fixed name ["REJECT"] to the current state; that name is
    outside the machine's state set exactly when the state set does not
    list it. *)
Theorem implicit_rejection_sentinel (m : Machine) (s : RunState) :
  reject_states m = [] → implicit_rejection_path m s →
  ∃ s', step m s = Returned false s' ∧
        current_state s' = "REJECT" ∧
        (current_state s' ∉ states m ↔ "REJECT" ∉ states m).
Proof.
  intros Hempty Hpath. eexists. split; [by apply step_implicit_rejection|].
  simpl. unfold implicit_reject_state. by rewrite Hempty.
Qed.

Lemma implicit_rejection_sentinel_witness :
  ∃ s', step accept_moving_right (loaded accept_moving_right "b" (init accept_moving_right))
          = Returned false s' ∧
        current_state s' = "REJECT" ∧
        (current_state s' ∉ states accept_moving_right
         ↔ "REJECT" ∉ states accept_moving_right).
Proof.
  apply implicit_rejection_sentinel.
  - reflexivity.
  - split; [unfold halted; compute_done|]. by exists "b".
Defined.

(** C8. After a load, any number [N] of calls of [step] return, the tape
    has then at most [N] cells more than the loaded tape, and in the call
    that follows the head is an index of the tape once the boundary
    extension is done.  [N] ranges over all naturals, so the last part
    covers every call. *)
Theorem tape_growth_bound (m : Machine) (input : string) (s0 : RunState) (N : nat) :
  ∃ bs s,
    step_calls m N (loaded m input s0) = Returned bs s ∧
    (length (tape s) <= length (tape (loaded m input s0)) + N)%nat ∧
    0 <= head_position (extend_tape m s)
      < Z.of_nat (length (tape (extend_tape m s))).
Proof.
  destruct (step_calls_near_tape m N (loaded m input s0) (loaded_near_tape m input s0))
    as (bs & s & Hcalls & Hnear & _ & Hlen).
  exists bs, s. repeat split; [done|done|..];
    apply (extend_tape_on_tape m s (proj2 Hnear)).
Qed.

(** ** Properties of [run] *)

(** C4. For every machine, input and step budget [run] returns a triple:
    the first component is [True] exactly when the current state at the exit
    of the loop is in the accepting set, the second is the step counter and
    the third the rendering of the tape.  When the loop was left because the
    budget was used up (then the counter has reached [max_steps]) in a state
    outside both halting sets, the first component is [False]: the same
    value as for a run that halted outside the accepting set. *)
Theorem run_returns_triple (m : Machine) (input : string) (max_steps : Z) (s0 : RunState) :
  ∃ how s accepted,
    run_loop m max_steps (Z.to_nat max_steps) (loaded m input s0)
      = Some (Returned how s) ∧
    run m input max_steps s0
      = Some (Returned (accepted, steps s, get_tape_string m s) s) ∧
    (accepted = true ↔ current_state s ∈ accept_states m) ∧
    (how = BudgetExhausted → max_steps <= steps s) ∧
    (how = BudgetExhausted → ¬ halted m s → accepted = false) ∧
    (how = Break → current_state s ∉ accept_states m → accepted = false).
Proof.
  destruct (run_total m max_steps input s0) as (how & s & Hloop & Hrun & Hhow).
  exists how, s, (bool_decide (current_state s ∈ accept_states m)).
  split_and!; [done|done|..].
  - apply bool_decide_eq_true.
  - intros ->. exact Hhow.
  - intros _ Hnh. apply bool_decide_eq_false_2. unfold halted in Hnh. tauto.
  - intros _ Hna. by apply bool_decide_eq_false_2.
Qed.

(** C6. The binary-increment machine under the default budget: accepted,
    with rendering ["1100"] for ["1011"], ["10"] for ["1"] and ["10000"] for
    ["1111"]. *)
Theorem binary_increment_runs (s0 : RunState) :
  run binary_increment "1011" default_max_steps s0
    = Some (Returned (true, 8, "1100")
              (mkRunState ["1"; "1"; "0"; "0"; "_"] 1 "done" 8)) ∧
  run binary_increment "1" default_max_steps s0
    = Some (Returned (true, 4, "10")
              (mkRunState ["1"; "0"; "_"] 0 "done" 4)) ∧
  run binary_increment "1111" default_max_steps s0
    = Some (Returned (true, 10, "10000")
              (mkRunState ["1"; "0"; "0"; "0"; "0"; "_"] 0 "done" 10)).
Proof. split_and!; vm_compute; reflexivity. Qed.

(** C3. The palindrome-checker table under the default budget accepts
    ["1001"] and the empty input, and it accepts ["1101"] as well: after
    marking the first cell it marks the last unmarked cell whatever symbol
    that cell holds, and on its way back [start] meets the mark [X] and
    accepts. *)
Theorem palindrome_checker_runs (s0 : RunState) :
  run palindrome_checker "1001" default_max_steps s0
    = Some (Returned (true, 11, "_X00X")
              (mkRunState ["_"; "X"; "0"; "0"; "X"; "_"] 1 "accept" 11)) ∧
  run palindrome_checker "1101" default_max_steps s0
    = Some (Returned (true, 11, "_X10X")
              (mkRunState ["_"; "X"; "1"; "0"; "X"; "_"] 1 "accept" 11)) ∧
  run palindrome_checker "" default_max_steps s0
    = Some (Returned (true, 1, "_") (mkRunState ["_"] 0 "accept" 1)).
Proof. split_and!; vm_compute; reflexivity. Qed.

Lemma ping_pong_loops : loops_between ping_pong "ping" "pong".
Proof.
  unfold loops_between.
  split_and!; [compute_done|compute_done|compute_done|compute_done|by left|compute_done|].
  intros sym Hsym. simpl in Hsym.
  apply elem_of_cons in Hsym as [->|Hsym];
    [|apply elem_of_cons in Hsym as [->|Hsym]; [|by apply elem_of_nil in Hsym]].
  - split; [exists "0", "R"|exists "0", "N"]; split; (reflexivity || compute_done).
  - split; [exists "_", "L"|exists "0", "L"]; split; (reflexivity || compute_done).
Qed.

(** C5, as stated, fails: [ping_pong] loops between its two non-halting
    states on every symbol of its tape alphabet, but the input ["1"] is
    outside that alphabet, so the first call of [step] finds no transition
    and [run] returns with 0 steps. *)
Lemma looping_run_rejects_foreign_input :
  loops_between ping_pong "ping" "pong" ∧
  run ping_pong "1" 100 (init ping_pong)
    = Some (Returned (false, 0, "1") (mkRunState ["1"] 0 "REJECT" 0)).
Proof. split; [exact ping_pong_loops|vm_compute; reflexivity]. Qed.

(** C5, amended. When the transition table loops between two non-halting
    states over the tape alphabet and the input is a string over that
    alphabet, [run] with [max_steps = 100] returns, without raising, exactly
    100 steps and [accepted = False]. *)
Theorem looping_run_exhausts_budget
    (m : Machine) (a b : string) (input : string) (s0 : RunState) :
  loops_between m a b → input_over m input →
  ∃ s, run m input 100 s0 = Some (Returned (false, 100, get_tape_string m s) s).
Proof.
  intros Hloop Hinput. by apply (run_in_loop m a b Hloop input 100 s0 Hinput).
Qed.

Lemma looping_run_exhausts_budget_witness :
  ∃ s, run ping_pong "00" 100 (init ping_pong)
       = Some (Returned (false, 100, get_tape_string ping_pong s) s).
Proof.
  apply (looping_run_exhausts_budget ping_pong "ping" "pong").
  - exact ping_pong_loops.
  - intros sym Hsym. simpl in Hsym.
    apply elem_of_cons in Hsym as [->|Hsym];
      [|apply elem_of_cons in Hsym as [->|Hsym]; [|by apply elem_of_nil in Hsym]];
      compute_done.
Defined.


(** * Further properties of the engine *)

(** ** The transition branch of [step] *)

Section StepTransition.
Variable m : Machine.
Implicit Types s : RunState.

Lemma move_head_offset d s :
  head_position (move_head d s) = head_position s + head_offset d.
Proof. unfold move_head, head_offset. repeat case_bool_decide; simpl; lia. Qed.

Lemma symbol_read_on_tape s sym :
  symbol_read m s = Some sym →
  head_on_tape (extend_tape m s) ∧
  tape (extend_tape m s) !! Z.to_nat (head_position (extend_tape m s)) = Some sym.
Proof.
  intros Hsym. pose proof (extend_tape_head_nonneg m s) as H0.
  destruct (get_nonneg_Some _ _ _ H0 Hsym) as [Hlt Hlook].
  split; [split; lia|done].
Qed.

Lemma symbol_read_head_bound s sym :
  symbol_read m s = Some sym → head_position s <= Z.of_nat (length (tape s)).
Proof.
  intros Hsym. destruct (symbol_read_on_tape s sym Hsym) as [[_ Hlt] _].
  revert Hlt. unfold extend_tape.
  repeat case_bool_decide; simpl; rewrite ?length_app; simpl; lia.
Qed.

(** What [step] returns when the dictionary has the key. *)
Lemma step_defined_transition s sym q w d :
  ¬ halted m s → symbol_read m s = Some sym →
  transitions m !! (current_state s, sym) = Some (q, w, d) →
  step m s =
  Returned true
    (mkRunState
       (<[Z.to_nat (head_position (extend_tape m s)) := w]> (tape (extend_tape m s)))
       (head_position (extend_tape m s) + head_offset d)
       q (steps s + 1)).
Proof.
  intros Hnh Hsym Hkey.
  destruct (symbol_read_on_tape s sym Hsym) as [Hon _].
  unfold symbol_read in Hsym. unfold step. cbv zeta. rewrite Hsym.
  rewrite extend_tape_current_state, Hkey.
  unfold halted in Hnh.
  rewrite !bool_decide_eq_false_2 by tauto.
  rewrite (set_in_range _ _ w Hon).
  f_equal. unfold move_head, head_offset.
  rewrite <- (extend_tape_steps m s).
  repeat case_bool_decide; unfold set_steps, set_head_position,
    set_current_state, set_tape; simpl; f_equal; lia.
Qed.

(** [step] returns as soon as the head is at most one cell past the end. *)
Lemma step_returns s :
  head_position s <= Z.of_nat (length (tape s)) → ∃ b s', step m s = Returned b s'.
Proof.
  intros Hs. destruct (symbol_read_near m s Hs) as [sym Hsym].
  destruct (decide (halted m s)) as [Hh|Hnh].
  - eexists _, _. by apply step_halted.
  - destruct (transitions m !! (current_state s, sym)) as [[[q w] d]|] eqn:Hkey.
    + eexists _, _. by eapply step_defined_transition.
    + eexists _, _. apply step_implicit_rejection. split; [done|by exists sym].
Qed.

(** A [False] return leaves the head on the tape, and the state either as
    it was (halting) or replaced by the implicit-rejection state. *)
Lemma step_false_inv s s1 :
  step m s = Returned false s1 →
  head_on_tape s1 ∧
  ((halted m s ∧ s1 = extend_tape m s) ∨
   (implicit_rejection_path m s ∧
    s1 = set_current_state (implicit_reject_state m) (extend_tape m s))).
Proof.
  intros Hstep.
  destruct (symbol_read m s) as [sym|] eqn:Hsym.
  - destruct (symbol_read_on_tape s sym Hsym) as [Hon _].
    destruct (decide (halted m s)) as [Hh|Hnh].
    + rewrite (step_halted m s Hh (symbol_read_head_bound s sym Hsym)) in Hstep.
      injection Hstep as <-. split; [done|]. by left.
    + destruct (transitions m !! (current_state s, sym)) as [[[q w] d]|] eqn:Hkey.
      * by rewrite (step_defined_transition s sym q w d Hnh Hsym Hkey) in Hstep.
      * assert (Hpath : implicit_rejection_path m s)
          by (split; [done|by exists sym]).
        rewrite (step_implicit_rejection m s Hpath) in Hstep.
        injection Hstep as <-. split; [exact Hon|]. by right.
  - unfold symbol_read in Hsym. unfold step in Hstep. cbv zeta in Hstep.
    by rewrite Hsym in Hstep.
Qed.
End StepTransition.

(** X1. A call of [step] that finds its key in the dictionary returns
    [True], moves to the entry's state, adds one to the step counter, writes
    the entry's symbol into the cell under the head and into no other cell
    of the (boundary-extended) tape, and moves the head by one cell for
    ["R"] and ["L"] and not at all for any other direction. *)
Theorem step_transition_effect
    (m : Machine) (s : RunState) (sym q w d : string) :
  ¬ halted m s → symbol_read m s = Some sym →
  transitions m !! (current_state s, sym) = Some (q, w, d) →
  ∃ s', step m s = Returned true s' ∧
        current_state s' = q ∧
        steps s' = steps s + 1 ∧
        head_position s' = head_position (extend_tape m s) + head_offset d ∧
        length (tape s') = length (tape (extend_tape m s)) ∧
        tape s' !! Z.to_nat (head_position (extend_tape m s)) = Some w ∧
        ∀ i, i ≠ Z.to_nat (head_position (extend_tape m s)) →
             tape s' !! i = tape (extend_tape m s) !! i.
Proof.
  intros Hnh Hsym Hkey.
  destruct (symbol_read_on_tape m s sym Hsym) as [Hon _].
  eexists. split; [by eapply step_defined_transition|]. simpl.
  split_and!; try done.
  - apply length_insert.
  - apply list_lookup_insert_eq. unfold head_on_tape in Hon. lia.
  - intros i Hi. by apply list_lookup_insert_ne.
Qed.

Lemma step_transition_effect_witness :
  ∃ s', step binary_increment (mkRunState ["1"; "1"] (-1) "carry" 5) = Returned true s' ∧
        current_state s' = "done" ∧ steps s' = 6 ∧ head_position s' = 0 ∧
        length (tape s') = 3%nat ∧ tape s' !! 0%nat = Some "1".
Proof.
  destruct (step_transition_effect binary_increment
              (mkRunState ["1"; "1"] (-1) "carry" 5) "_" "done" "1" "N")
    as (s' & Hstep & Hq & Hst & Hh & Hlen & Hw & _).
  - unfold halted. compute_done.
  - reflexivity.
  - reflexivity.
  - exists s'. split_and!; done.
Defined.

(** X2. [step] raises [IndexError] exactly when the head is more than one
    cell past the end of the tape; the blank cell the boundary extension
    appended before the failing read stays on the tape. *)
Theorem step_raises_iff (m : Machine) (s : RunState) :
  ((∃ e s', step m s = Raised e s') ↔ Z.of_nat (length (tape s)) < head_position s) ∧
  (Z.of_nat (length (tape s)) < head_position s →
   step m s = Raised IndexError (set_tape (tape s ++ [blank_symbol m]) s)).
Proof.
  assert (Hfar : Z.of_nat (length (tape s)) < head_position s →
                 step m s = Raised IndexError (set_tape (tape s ++ [blank_symbol m]) s)).
  { intros Hs. unfold step. cbv zeta.
    assert (He : extend_tape m s = set_tape (tape s ++ [blank_symbol m]) s).
    { unfold extend_tape. rewrite bool_decide_eq_false_2 by lia.
      by rewrite bool_decide_eq_true_2 by lia. }
    rewrite He. rewrite get_past_end; [done|].
    simpl. rewrite length_app. simpl. lia. }
  split; [|exact Hfar]. split.
  - intros (e & s' & Hstep).
    destruct (decide (head_position s <= Z.of_nat (length (tape s)))) as [Hle|Hgt]; [|lia].
    destruct (step_returns m s Hle) as (b & s'' & Hret). congruence.
  - intros Hs. eexists _, _. by apply Hfar.
Qed.

(** X3. With a non-empty rejecting set a [False] return of [step] is final:
    every later call returns [False] again and leaves the run state as the
    first [False] return left it. *)
Theorem false_return_is_final (m : Machine) (s s1 : RunState) (n : nat) :
  reject_states m ≠ [] → step m s = Returned false s1 →
  step_calls m n s1 = Returned (replicate n false) s1.
Proof.
  intros Hne Hstep.
  destruct (step_false_inv m s s1 Hstep) as [Hon Hcase].
  assert (Hh : halted m s1).
  { destruct Hcase as [[Hh ->]|[_ ->]].
    - by apply extend_tape_halted.
    - right. simpl. destruct (implicit_reject_state_spec m) as [Hin|[Hnil _]]; done. }
  destruct n as [|n]; [done|].
  rewrite step_calls_halted; [|done|unfold head_on_tape in Hon; lia].
  by rewrite (extend_tape_id m s1 Hon).
Qed.

Lemma false_return_is_final_witness :
  step_calls two_rejecting 4 (mkRunState ["_"; "a"] 0 "no" 3)
  = Returned [false; false; false; false] (mkRunState ["_"; "a"] 0 "no" 3).
Proof.
  apply (false_return_is_final two_rejecting stuck_off_left); [done|reflexivity].
Defined.

(** X4. With an empty rejecting set a [False] return need not be final.
    The implicit rejection leaves the machine in the state ["REJECT"]; when
    that name is not an accepting state and the dictionary has an entry for
    it and the symbol under the head, the next call of [step] follows that
    entry and returns [True]. *)
Theorem sentinel_state_resumes
    (m : Machine) (s : RunState) (sym q w d : string) :
  reject_states m = [] → "REJECT" ∉ accept_states m →
  implicit_rejection_path m s → symbol_read m s = Some sym →
  transitions m !! ("REJECT", sym) = Some (q, w, d) →
  ∃ s1 s2, step m s = Returned false s1 ∧
           step m s1 = Returned true s2 ∧
           current_state s2 = q ∧ steps s2 = steps s + 1.
Proof.
  intros Hnil Hacc Hpath Hsym Hkey.
  destruct (symbol_read_on_tape m s sym Hsym) as [Hon Hlook].
  set (s1 := set_current_state (implicit_reject_state m) (extend_tape m s)).
  assert (Hstate : current_state s1 = "REJECT").
  { simpl. unfold implicit_reject_state. by rewrite Hnil. }
  assert (Hext : extend_tape m s1 = s1) by (by apply extend_tape_id).
  assert (Hsym1 : symbol_read m s1 = Some sym).
  { unfold symbol_read. rewrite Hext. simpl.
    destruct (get_in_range (tape (extend_tape m s)) (head_position (extend_tape m s)) Hon)
      as (x & Hget & Hx). congruence. }
  assert (Hnh : ¬ halted m s1).
  { unfold halted. rewrite Hstate, Hnil. intros [H|H]; [done|by apply elem_of_nil in H]. }
  exists s1. eexists. split; [by apply step_implicit_rejection|].
  split; [apply (step_defined_transition m s1 sym q w d Hnh Hsym1); by rewrite Hstate|].
  simpl. split; [done|]. by rewrite extend_tape_steps.
Qed.

Lemma sentinel_state_resumes_witness :
  ∃ s1 s2,
    step sentinel_resumes (loaded sentinel_resumes "a" (init sentinel_resumes))
      = Returned false s1 ∧
    step sentinel_resumes s1 = Returned true s2 ∧
    current_state s2 = "q0" ∧
    steps s2 = steps (loaded sentinel_resumes "a" (init sentinel_resumes)) + 1.
Proof.
  apply (sentinel_state_resumes sentinel_resumes _ "a" "q0" "a" "N").
  - reflexivity.
  - compute_done.
  - split; [unfold halted; compute_done|]. by exists "a".
  - reflexivity.
  - reflexivity.
Defined.

(** ** Invariants of a well-formed machine *)

Section Invariants.
Variable m : Machine.
Implicit Types s : RunState.

Lemma state_after_step_calls_S n s :
  state_after (step_calls m (S n) s) =
  match step m s with
  | Returned _ s' => state_after (step_calls m n s')
  | Raised _ s' => s'
  end.
Proof.
  rewrite step_calls_S. destruct (step m s) as [b s'|e s']; [|done].
  by destruct (step_calls m n s').
Qed.

(** A property of run states kept by one call is kept by any number. *)
Lemma step_calls_invariant (P : RunState → Prop) :
  (∀ s, P s → P (state_after (step m s))) →
  ∀ n s, P s → P (state_after (step_calls m n s)).
Proof.
  intros Hstep n. induction n as [|n IH]; intros s Hs; [done|].
  rewrite state_after_step_calls_S. specialize (Hstep s Hs).
  destruct (step m s) as [b s'|e s']; [by apply IH|done].
Qed.

(** The run state one call leaves, by the exit taken. *)
Lemma state_after_step s :
  state_after (step m s) = extend_tape m s ∨
  state_after (step m s)
    = set_current_state (implicit_reject_state m) (extend_tape m s) ∨
  ∃ sym q w d,
    symbol_read m s = Some sym ∧
    transitions m !! (current_state s, sym) = Some (q, w, d) ∧
    state_after (step m s)
    = mkRunState
        (<[Z.to_nat (head_position (extend_tape m s)) := w]> (tape (extend_tape m s)))
        (head_position (extend_tape m s) + head_offset d) q (steps s + 1).
Proof.
  destruct (symbol_read m s) as [sym|] eqn:Hsym.
  - destruct (decide (halted m s)) as [Hh|Hnh].
    + left. by rewrite (step_halted m s Hh (symbol_read_head_bound m s sym Hsym)).
    + destruct (transitions m !! (current_state s, sym)) as [[[q w] d]|] eqn:Hkey.
      * right. right. exists sym, q, w, d.
        by rewrite (step_defined_transition m s sym q w d Hnh Hsym Hkey).
      * right. left. rewrite step_implicit_rejection; [done|].
        split; [done|by exists sym].
  - left. unfold symbol_read in Hsym. unfold step. cbv zeta. by rewrite Hsym.
Qed.

Lemma extend_tape_over_alphabet s :
  blank_symbol m ∈ tape_alphabet m →
  tape_over_alphabet m s → tape_over_alphabet m (extend_tape m s).
Proof.
  intros Hblank Hs. unfold tape_over_alphabet, extend_tape in *.
  repeat case_bool_decide; simpl; [| |done].
  - by apply Forall_cons.
  - apply Forall_app. split; [done|]. by apply Forall_cons.
Qed.
End Invariants.

(** X5. When the blank symbol and every symbol written by a transition
    belong to the tape alphabet, a tape over the tape alphabet stays over
    the tape alphabet through any number of [step] calls. *)
Theorem tape_stays_over_alphabet (m : Machine) (s : RunState) (n : nat) :
  blank_symbol m ∈ tape_alphabet m → writes_in_alphabet m →
  tape_over_alphabet m s →
  tape_over_alphabet m (state_after (step_calls m n s)).
Proof.
  intros Hblank Hwrites. revert s. apply step_calls_invariant. intros s Hs.
  pose proof (extend_tape_over_alphabet m s Hblank Hs) as He.
  destruct (state_after_step m s) as [->|[->|(sym & q & w & d & _ & Hkey & ->)]];
    [done|done|].
  unfold tape_over_alphabet. simpl. apply Forall_insert; [done|].
  apply (map_Forall_lookup_1 _ _ _ _ Hwrites Hkey).
Qed.

Lemma tape_stays_over_alphabet_witness :
  tape_over_alphabet palindrome_checker
    (state_after (step_calls palindrome_checker 7
                    (loaded palindrome_checker "10" (init palindrome_checker)))).
Proof.
  apply tape_stays_over_alphabet.
  - compute_done.
  - unfold writes_in_alphabet. compute_done.
  - unfold tape_over_alphabet. compute_done.
Defined.

(** X6. When every transition leads to a member of the state set and the
    state assigned by the implicit rejection (the first rejecting state, or
    ["REJECT"] without rejecting states) is a member too, the current state
    stays in the state set through any number of [step] calls. *)
Theorem current_state_stays_in_states (m : Machine) (s : RunState) (n : nat) :
  targets_in_states m → implicit_reject_state m ∈ states m →
  current_state s ∈ states m →
  current_state (state_after (step_calls m n s)) ∈ states m.
Proof.
  intros Htargets Hrej. revert s.
  apply (step_calls_invariant m (λ s, current_state s ∈ states m)). intros s Hs.
  destruct (state_after_step m s) as [->|[->|(sym & q & w & d & _ & Hkey & ->)]].
  - by rewrite extend_tape_current_state.
  - done.
  - simpl. apply (map_Forall_lookup_1 _ _ _ _ Htargets Hkey).
Qed.

Lemma current_state_stays_in_states_witness :
  current_state
    (state_after (step_calls binary_increment 9
                    (loaded binary_increment "" (init binary_increment))))
  ∈ states binary_increment.
Proof.
  apply current_state_stays_in_states.
  - unfold targets_in_states. compute_done.
  - compute_done.
  - compute_done.
Defined.

(** X7. Stepping a freshly constructed machine, without any [load_input],
    is the same as stepping it after loading the empty input: the first
    boundary extension turns the empty tape into one blank cell. *)
Theorem step_without_load (m : Machine) (s0 : RunState) (n : nat) :
  step_calls m (S n) (init m) = step_calls m (S n) (loaded m "" s0).
Proof.
  rewrite !step_calls_S.
  assert (Hstep : step m (init m) = step m (loaded m "" s0)) by reflexivity.
  by rewrite Hstep.
Qed.

(** ** The step budget of [run] *)

Section Budget.
Variable m : Machine.
Variable max_steps : Z.
Implicit Types s : RunState.

(** The loop stops counting at the budget. *)
Lemma run_loop_steps_le fuel s how s' :
  head_near_tape s → run_loop m max_steps fuel s = Some (Returned how s') →
  steps s' <= Z.max (steps s) max_steps.
Proof.
  revert s. induction fuel as [|fuel IH]; intros s Hs; cbn [run_loop].
  - case_bool_decide; [done|]. intros [= _ <-]. lia.
  - case_bool_decide as Hlt; [|intros [= _ <-]; lia].
    destruct (step_near_tape m s Hs) as (b & s1 & Hstep & Hs1 & _ & Hst).
    rewrite Hstep. destruct b.
    + intros Hrun. specialize (IH s1 Hs1 Hrun). lia.
    + intros [= _ <-]. lia.
Qed.
End Budget.

(** X8. The step count [run] returns lies between 0 and the budget (0 for a
    negative budget); with a budget of 0 or less no call of [step] is made
    and the result describes the freshly loaded input. *)
Theorem run_steps_within_budget
    (m : Machine) (input : string) (max_steps : Z) (s0 : RunState) :
  ∃ accepted n final_tape s,
    run m input max_steps s0 = Some (Returned (accepted, n, final_tape) s) ∧
    0 <= n <= Z.max 0 max_steps ∧
    (max_steps <= 0 →
     s = loaded m input s0 ∧ n = 0 ∧
     accepted = bool_decide (initial_state m ∈ accept_states m) ∧
     final_tape = get_tape_string m (loaded m input s0)).
Proof.
  destruct (run_total m max_steps input s0) as (how & s & Hloop & Hrun & _).
  destruct (run_loop_spec m max_steps (Z.to_nat max_steps) (loaded m input s0))
    as (how' & s' & k & sk & Hloop' & _ & _ & Hsk & Hhow);
    [apply loaded_near_tape|simpl; lia|].
  rewrite Hloop in Hloop'. injection Hloop' as <- <-.
  pose proof (run_loop_steps_le m max_steps _ _ _ _
                (loaded_near_tape m input s0) Hloop) as Hle.
  eexists _, _, _, s. split; [exact Hrun|]. split.
  - simpl in Hle, Hsk. destruct how; [destruct Hhow as [-> _]|]; lia.
  - intros Hmax. unfold loaded in Hloop. simpl in Hloop.
    destruct (Z.to_nat max_steps) eqn:Hfuel; [|lia].
    simpl in Hloop. rewrite bool_decide_eq_false_2 in Hloop by lia.
    injection Hloop as _ <-. done.
Qed.

(** X9. [run] makes the [step] calls one after the other from the loaded
    state: some number [k] of calls return [True], and [k] is the step count
    reported.  Then either the budget is used up and [step] is not called
    again, or one more call returns [False] and its run state is the one
    the result is read from. *)
Theorem run_counts_true_steps
    (m : Machine) (input : string) (max_steps : Z) (s0 : RunState) :
  ∃ k sk how s,
    step_calls m k (loaded m input s0) = Returned (replicate k true) sk ∧
    run m input max_steps s0
      = Some (Returned (bool_decide (current_state s ∈ accept_states m),
                        Z.of_nat k, get_tape_string m s) s) ∧
    match how with
    | BudgetExhausted => s = sk ∧ max_steps <= Z.of_nat k
    | Break => Z.of_nat k < max_steps ∧ step m sk = Returned false s
    end.
Proof.
  destruct (run_total m max_steps input s0) as (how & s & Hloop & Hrun & _).
  destruct (run_loop_spec m max_steps (Z.to_nat max_steps) (loaded m input s0))
    as (how' & s' & k & sk & Hloop' & _ & Hcalls & Hsk & Hhow);
    [apply loaded_near_tape|simpl; lia|].
  rewrite Hloop in Hloop'. injection Hloop' as <- <-.
  exists k, sk, how, s. split; [done|].
  assert (Hk : steps s = Z.of_nat k).
  { simpl in Hsk. destruct how; [destruct Hhow as [-> _]|]; lia. }
  rewrite <- Hk. split; [done|].
  destruct how; [|destruct Hhow as (Hlt & Hstep & Heq); split; [lia|done]].
  destruct Hhow as [-> Hmax]. split; [done|lia].
Qed.

(** ** The tape rendering *)

Section Rendering.
Implicit Types (s b set body : string) (c : ascii).

Lemma append_cons c s b : (String c s ++ b) = String c (s ++ b).
Proof. reflexivity. Qed.

Lemma append_empty_r s : (s ++ "") = s.
Proof. induction s as [|c s IH]; [done|]. by rewrite append_cons, IH. Qed.

Lemma append_assoc s b body : ((s ++ b) ++ body) = (s ++ (b ++ body)).
Proof. induction s as [|c s IH]; [done|]. by rewrite !append_cons, IH. Qed.

Lemma all_chars_in_cons c s set :
  all_chars_in (String c s) set ↔ PyStr.char_in c set = true ∧ all_chars_in s set.
Proof.
  unfold all_chars_in.
  change (list_ascii_of_string (String c s)) with (c :: list_ascii_of_string s).
  by rewrite Forall_cons.
Qed.

Lemma all_chars_in_empty set : all_chars_in "" set.
Proof. unfold all_chars_in. simpl. constructor. Qed.

(** Every character of a string occurs in that string. *)
Lemma all_chars_in_self set : all_chars_in set set.
Proof.
  unfold all_chars_in, PyStr.char_in. apply Forall_forall. intros c Hc.
  apply existsb_exists. exists c. split; [by apply list_elem_of_In|].
  apply Ascii.eqb_refl.
Qed.

Lemma rstrip_cons c s set :
  PyStr.rstrip (String c s) set =
  match PyStr.rstrip s set with
  | EmptyString => if PyStr.char_in c set then EmptyString else String c EmptyString
  | kept => String c kept
  end.
Proof. reflexivity. Qed.

Lemma rstrip_all_in b set : all_chars_in b set → PyStr.rstrip b set = "".
Proof.
  induction b as [|c b IH]; [done|].
  intros [Hc Hb]%all_chars_in_cons. by rewrite rstrip_cons, IH, Hc.
Qed.

(** A suffix made of characters of [set] is dropped whole. *)
Lemma rstrip_app_in s b set :
  all_chars_in b set → PyStr.rstrip (s ++ b) set = PyStr.rstrip s set.
Proof.
  intros Hb. induction s as [|c s IH].
  - by rewrite rstrip_all_in.
  - by rewrite append_cons, !rstrip_cons, IH.
Qed.

(** A string that ends in a character outside [set] is left alone. *)
Lemma rstrip_ends_outside body c set :
  PyStr.char_in c set = false →
  PyStr.rstrip (body ++ String c "") set = (body ++ String c "").
Proof.
  intros Hc. induction body as [|a body IH].
  - change ("" ++ String c "") with (String c ""). by rewrite rstrip_cons, Hc.
  - rewrite append_cons, rstrip_cons, IH.
    destruct body; reflexivity.
Qed.

(** [rstrip] splits its argument into what it returns and a suffix of
    characters of [set]; what it returns is empty or ends outside [set]. *)
Lemma rstrip_spec s set :
  ∃ suffix,
    s = (PyStr.rstrip s set ++ suffix) ∧ all_chars_in suffix set ∧
    (PyStr.rstrip s set = "" ∨
     ∃ body c, PyStr.rstrip s set = (body ++ String c "") ∧
               PyStr.char_in c set = false).
Proof.
  induction s as [|a s (suffix & Heq & Hsuf & Hend)].
  - exists "". split_and!; [done|apply all_chars_in_empty|by left].
  - rewrite rstrip_cons. destruct (PyStr.rstrip s set) as [|c' r'] eqn:Hr.
    + destruct (PyStr.char_in a set) eqn:Ha.
      * exists (String a s). split_and!; [done| |by left].
        apply all_chars_in_cons. split; [done|]. by rewrite Heq.
      * exists s. split_and!; [done|by rewrite Heq|].
        right. by exists "", a.
    + exists suffix. split_and!; [by rewrite append_cons, <- Heq|done|].
      right. destruct Hend as [?|(body & c & Hbody & Hc)]; [done|].
      exists (String a body), c. by rewrite append_cons, <- Hbody.
Qed.

Lemma join_app (l1 l2 : list string) :
  PyStr.join (l1 ++ l2) = (PyStr.join l1 ++ PyStr.join l2).
Proof.
  induction l1 as [|x l1 IH]; [done|].
  simpl. by rewrite IH, append_assoc.
Qed.

Lemma join_replicate_in n b set :
  all_chars_in b set → all_chars_in (PyStr.join (replicate n b)) set.
Proof.
  intros Hb. induction n as [|n IH]; [apply all_chars_in_empty|].
  simpl. unfold all_chars_in in *.
  revert IH. generalize (PyStr.join (replicate n b)). intros rest Hrest.
  clear n. induction b as [|c b IHb]; [done|].
  rewrite append_cons. simpl in *. apply Forall_cons in Hb as [Hc Hb].
  apply Forall_cons. split; [done|by apply IHb].
Qed.
End Rendering.

Lemma tape_string_app_blanks (m : Machine) (s : RunState) (n : nat) :
  get_tape_string m (set_tape (tape s ++ replicate n (blank_symbol m)) s)
  = get_tape_string m s.
Proof.
  unfold get_tape_string. simpl. rewrite join_app.
  rewrite rstrip_app_in; [done|].
  apply join_replicate_in, all_chars_in_self.
Qed.

(** X10. Blank cells at the end of the tape do not show in the rendering:
    appending any number of them leaves [get_tape_string] unchanged. *)
Theorem tape_string_ignores_trailing_blanks (m : Machine) (s : RunState) (n : nat) :
  get_tape_string m (set_tape (tape s ++ replicate n (blank_symbol m)) s)
  = get_tape_string m s.
Proof. apply tape_string_app_blanks. Qed.

(** X11. What [get_tape_string] returns: the joined cells without their
    longest suffix of blank-symbol characters, that is a string that ends in
    a character which does not occur in the blank symbol; or the blank
    symbol itself when every character on the tape occurs in it. *)
Theorem tape_string_spec (m : Machine) (s : RunState) :
  (get_tape_string m s = blank_symbol m ∧
   all_chars_in (PyStr.join (tape s)) (blank_symbol m)) ∨
  (∃ body c suffix,
     get_tape_string m s = (body ++ String c "") ∧
     PyStr.char_in c (blank_symbol m) = false ∧
     PyStr.join (tape s) = (get_tape_string m s ++ suffix) ∧
     all_chars_in suffix (blank_symbol m)).
Proof.
  unfold get_tape_string.
  destruct (rstrip_spec (PyStr.join (tape s)) (blank_symbol m))
    as (suffix & Heq & Hsuf & Hend).
  destruct (PyStr.rstrip (PyStr.join (tape s)) (blank_symbol m)) as [|c' r'] eqn:Hr.
  - left. split; [done|]. by rewrite Heq.
  - right. destruct Hend as [?|(body & c & Hbody & Hc)]; [done|].
    exists body, c, suffix. done.
Qed.

(** X12. Loading and rendering is a round trip: for an input whose last
    character does not occur in the blank symbol, the rendering of the
    freshly loaded tape is the input. *)
Theorem load_then_render (m : Machine) (body : string) (c : ascii) (s0 : RunState) :
  PyStr.char_in c (blank_symbol m) = false →
  get_tape_string m (loaded m (body ++ String c "") s0) = (body ++ String c "").
Proof.
  intros Hc. unfold get_tape_string, loaded. simpl.
  assert (Htape : match (body ++ String c "") with
                  | EmptyString => [blank_symbol m]
                  | _ => PyStr.chars (body ++ String c "")
                  end = PyStr.chars (body ++ String c "")).
  { by destruct body. }
  rewrite Htape, join_chars, rstrip_ends_outside by done.
  by destruct body.
Qed.

Lemma load_then_render_witness :
  get_tape_string binary_increment (loaded binary_increment "_01_10" (init binary_increment))
  = "_01_10".
Proof.
  apply (load_then_render binary_increment "_01_1" "0"). reflexivity.
Defined.

(** * The bundled machines on arbitrary inputs *)

(** ** Traces of successful steps *)

Section Traces.
Variable m : Machine.
Implicit Types s : RunState.

Lemma runs_true_O s : runs_true m 0 s s.
Proof. reflexivity. Qed.

Lemma runs_true_S k s s1 s2 :
  step m s = Returned true s1 → runs_true m k s1 s2 → runs_true m (S k) s s2.
Proof.
  unfold runs_true. intros Hstep Hrest. by rewrite step_calls_S, Hstep, Hrest.
Qed.

Lemma runs_true_S_inv k s s2 :
  runs_true m (S k) s s2 → ∃ s1, step m s = Returned true s1 ∧ runs_true m k s1 s2.
Proof.
  unfold runs_true. rewrite step_calls_S.
  destruct (step m s) as [b s1|e s1]; [|done].
  destruct (step_calls m k s1) as [bs s2'|e s2'] eqn:Hrest; [|done].
  rewrite replicate_S. intros Heq. injection Heq as -> -> ->. by exists s1.
Qed.

Lemma runs_true_trans j k s s1 s2 :
  runs_true m j s s1 → runs_true m k s1 s2 → runs_true m (j + k) s s2.
Proof.
  revert s. induction j as [|j IH]; intros s Hj Hk.
  - unfold runs_true in Hj. simpl in Hj. by injection Hj as ->.
  - apply runs_true_S_inv in Hj as (s' & Hstep & Hj).
    simpl. eapply runs_true_S; [done|]. by apply IH.
Qed.

Lemma runs_true_cast k k' s1 s1' s2 s2' :
  runs_true m k s1 s2 → k = k' → s1 = s1' → s2 = s2' → runs_true m k' s1' s2'.
Proof. by intros H -> -> ->. Qed.

Lemma runs_true_one s s1 : step m s = Returned true s1 → runs_true m 1 s s1.
Proof. intros Hstep. eapply runs_true_S; [done|apply runs_true_O]. Qed.

(** A [True] return comes from the transition branch. *)
Lemma step_true_inv s s1 :
  step m s = Returned true s1 →
  ∃ sym q w d,
    ¬ halted m s ∧ symbol_read m s = Some sym ∧
    transitions m !! (current_state s, sym) = Some (q, w, d) ∧
    s1 = mkRunState
           (<[Z.to_nat (head_position (extend_tape m s)) := w]> (tape (extend_tape m s)))
           (head_position (extend_tape m s) + head_offset d) q (steps s + 1).
Proof.
  intros Hstep.
  destruct (symbol_read m s) as [sym|] eqn:Hsym.
  - destruct (decide (halted m s)) as [Hh|Hnh].
    + by rewrite (step_halted m s Hh (symbol_read_head_bound m s sym Hsym)) in Hstep.
    + destruct (transitions m !! (current_state s, sym)) as [[[q w] d]|] eqn:Hkey.
      * rewrite (step_defined_transition m s sym q w d Hnh Hsym Hkey) in Hstep.
        injection Hstep as <-. by exists sym, q, w, d.
      * rewrite step_implicit_rejection in Hstep; [done|].
        split; [done|by exists sym].
  - unfold symbol_read in Hsym. unfold step in Hstep. cbv zeta in Hstep.
    by rewrite Hsym in Hstep.
Qed.

Lemma step_true_steps s s1 : step m s = Returned true s1 → steps s1 = steps s + 1.
Proof. intros (sym & q & w & d & _ & _ & _ & ->)%step_true_inv. done. Qed.

Lemma runs_true_steps k s s' : runs_true m k s s' → steps s' = steps s + Z.of_nat k.
Proof.
  revert s. induction k as [|k IH]; intros s Hk.
  - unfold runs_true in Hk. simpl in Hk. injection Hk as ->. lia.
  - apply runs_true_S_inv in Hk as (s1 & Hstep & Hk).
    rewrite (IH s1 Hk), (step_true_steps s s1 Hstep). lia.
Qed.

(** The loop of [run] follows a trace of successful steps up to a halting
    state: budget enough for the trace, and the loop ends there. *)
Lemma run_loop_to_halted max_steps k fuel s sk :
  runs_true m k s sk → halted m sk → head_on_tape sk →
  steps s + Z.of_nat k <= max_steps → max_steps - steps s <= Z.of_nat fuel →
  ∃ how, run_loop m max_steps fuel s = Some (Returned how sk).
Proof.
  revert fuel s. induction k as [|k IH]; intros fuel s Hk Hh Hon Hmax Hfuel.
  - unfold runs_true in Hk. simpl in Hk. injection Hk as ->.
    destruct fuel as [|fuel]; cbn [run_loop]; case_bool_decide; try lia;
      try (by eexists).
    rewrite step_halted; [|done|unfold head_on_tape in Hon; lia].
    rewrite (extend_tape_id m sk Hon). by eexists.
  - apply runs_true_S_inv in Hk as (s1 & Hstep & Hk).
    pose proof (step_true_steps s s1 Hstep) as Hst.
    destruct fuel as [|fuel]; [lia|].
    cbn [run_loop]. rewrite bool_decide_eq_true_2 by lia. rewrite Hstep.
    apply IH; [done|done|done|lia|lia].
Qed.

(** The same for a trace that ends in a call returning [False]. *)
Lemma run_loop_to_break max_steps k fuel s sk s' :
  runs_true m k s sk → step m sk = Returned false s' →
  steps s + Z.of_nat k < max_steps → max_steps - steps s <= Z.of_nat fuel →
  run_loop m max_steps fuel s = Some (Returned Break s').
Proof.
  revert fuel s. induction k as [|k IH]; intros fuel s Hk Hfalse Hmax Hfuel.
  - unfold runs_true in Hk. simpl in Hk. injection Hk as ->.
    destruct fuel as [|fuel]; [lia|].
    cbn [run_loop]. rewrite bool_decide_eq_true_2 by lia. by rewrite Hfalse.
  - apply runs_true_S_inv in Hk as (s1 & Hstep & Hk).
    pose proof (step_true_steps s s1 Hstep) as Hst.
    destruct fuel as [|fuel]; [lia|].
    cbn [run_loop]. rewrite bool_decide_eq_true_2 by lia. rewrite Hstep.
    apply IH; [done|done|lia|lia].
Qed.

Lemma run_to_halted input max_steps s0 k sk :
  runs_true m k (loaded m input s0) sk → halted m sk → head_on_tape sk →
  Z.of_nat k <= max_steps →
  run m input max_steps s0
  = Some (Returned (bool_decide (current_state sk ∈ accept_states m),
                    Z.of_nat k, get_tape_string m sk) sk).
Proof.
  intros Hk Hh Hon Hmax.
  destruct (run_loop_to_halted max_steps k (Z.to_nat max_steps) _ _ Hk Hh Hon)
    as [how Hloop]; [simpl; lia|simpl; lia|].
  pose proof (runs_true_steps _ _ _ Hk) as Hst.
  unfold loaded in Hst. simpl in Hst. rewrite Z.add_0_l in Hst.
  unfold run. unfold loaded in Hloop. simpl in Hloop |- *.
  by rewrite Hloop, Hst.
Qed.

Lemma run_to_break input max_steps s0 k sk s' :
  runs_true m k (loaded m input s0) sk → step m sk = Returned false s' →
  Z.of_nat k < max_steps →
  run m input max_steps s0
  = Some (Returned (bool_decide (current_state s' ∈ accept_states m),
                    Z.of_nat k, get_tape_string m s') s').
Proof.
  intros Hk Hfalse Hmax.
  pose proof (run_loop_to_break max_steps k (Z.to_nat max_steps) _ _ _ Hk Hfalse) as Hloop.
  pose proof (runs_true_steps _ _ _ Hk) as Hst.
  unfold loaded in Hst. simpl in Hst. rewrite Z.add_0_l in Hst.
  destruct (step_false_inv m sk s' Hfalse) as [_ Hcase].
  assert (Hs' : steps s' = steps sk).
  { destruct Hcase as [[_ ->]|[_ ->]]; simpl; apply extend_tape_steps. }
  unfold run. unfold loaded in Hloop. simpl in Hloop |- *.
  rewrite Hloop by (simpl; lia). by rewrite Hs', Hst.
Qed.
End Traces.

(** ** One successful step on a tape given by its parts *)

Section StepOnParts.
Variable m : Machine.
Implicit Types (pre post t : list string) (x cur q w d : string) (h n : Z).

(** The head is on the cell [x] between [pre] and [post]. *)
Lemma step_on_cell pre x post h cur n q w d :
  h = Z.of_nat (length pre) →
  cur ∉ accept_states m → cur ∉ reject_states m →
  transitions m !! (cur, x) = Some (q, w, d) →
  step m (mkRunState (pre ++ x :: post) h cur n)
  = Returned true (mkRunState (pre ++ w :: post) (h + head_offset d) q (n + 1)).
Proof.
  intros -> Ha Hr Hkey.
  set (s := mkRunState (pre ++ x :: post) (Z.of_nat (length pre)) cur n).
  assert (Hon : head_on_tape s).
  { unfold head_on_tape. simpl. rewrite length_app. simpl. lia. }
  assert (Hnh : ¬ halted m s) by (unfold halted; simpl; tauto).
  assert (Hsym : symbol_read m s = Some x).
  { unfold symbol_read. rewrite (extend_tape_id m s Hon). simpl.
    unfold PyList.get. rewrite bool_decide_eq_true_2 by lia.
    rewrite Nat2Z.id. apply list_lookup_middle. done. }
  rewrite (step_defined_transition m s x q w d Hnh Hsym Hkey).
  rewrite (extend_tape_id m s Hon). simpl. rewrite Nat2Z.id.
  do 2 f_equal.
  replace (length pre) with (length pre + 0)%nat by lia.
  by rewrite insert_app_r.
Qed.

(** The head is one cell past the end: a blank cell is appended and read. *)
Lemma step_past_end t h cur n q w d :
  h = Z.of_nat (length t) →
  cur ∉ accept_states m → cur ∉ reject_states m →
  transitions m !! (cur, blank_symbol m) = Some (q, w, d) →
  step m (mkRunState t h cur n)
  = Returned true (mkRunState (t ++ [w]) (h + head_offset d) q (n + 1)).
Proof.
  intros -> Ha Hr Hkey.
  set (s := mkRunState t (Z.of_nat (length t)) cur n).
  assert (He : extend_tape m s = mkRunState (t ++ [blank_symbol m]) (Z.of_nat (length t)) cur n).
  { unfold extend_tape. simpl. rewrite bool_decide_eq_false_2 by lia.
    by rewrite bool_decide_eq_true_2 by lia. }
  assert (Hnh : ¬ halted m s) by (unfold halted; simpl; tauto).
  assert (Hsym : symbol_read m s = Some (blank_symbol m)).
  { unfold symbol_read. rewrite He. simpl.
    unfold PyList.get. rewrite bool_decide_eq_true_2 by lia.
    rewrite Nat2Z.id. by apply list_lookup_middle. }
  rewrite (step_defined_transition m s _ q w d Hnh Hsym Hkey).
  rewrite He. simpl. rewrite Nat2Z.id. do 2 f_equal.
  replace (length t) with (length t + 0)%nat at 1 by lia.
  by rewrite insert_app_r.
Qed.

(** The head is left of the tape: a blank cell is put in front and read. *)
Lemma step_before_start t h cur n q w d :
  h < 0 →
  cur ∉ accept_states m → cur ∉ reject_states m →
  transitions m !! (cur, blank_symbol m) = Some (q, w, d) →
  step m (mkRunState t h cur n)
  = Returned true (mkRunState (w :: t) (head_offset d) q (n + 1)).
Proof.
  intros Hh Ha Hr Hkey.
  set (s := mkRunState t h cur n).
  assert (He : extend_tape m s = mkRunState (blank_symbol m :: t) 0 cur n).
  { unfold extend_tape. simpl. by rewrite bool_decide_eq_true_2 by lia. }
  assert (Hnh : ¬ halted m s) by (unfold halted; simpl; tauto).
  assert (Hsym : symbol_read m s = Some (blank_symbol m)).
  { unfold symbol_read. by rewrite He. }
  rewrite (step_defined_transition m s _ q w d Hnh Hsym Hkey).
  by rewrite He.
Qed.
End StepOnParts.

(** ** Binary numerals on the tape *)

Section Numerals.
Implicit Types (w v : list bool) (l : list bool).

Lemma append_empty_l (s : string) : ("" ++ s) = s.
Proof. reflexivity. Qed.

Lemma bits_string_cons b w :
  bits_string (b :: w) = String (if b then "1"%char else "0"%char) (bits_string w).
Proof. by destruct b. Qed.

Lemma chars_bits_string w : PyStr.chars (bits_string w) = bit_cells w.
Proof.
  induction w as [|b w IH]; [done|].
  rewrite bits_string_cons. simpl. rewrite IH. by destruct b.
Qed.

Lemma bit_cells_app w v : bit_cells (w ++ v) = (bit_cells w ++ bit_cells v)%list.
Proof. apply map_app. Qed.

Lemma length_bit_cells w : length (bit_cells w) = length w.
Proof. apply length_map. Qed.

(** Loading a non-empty numeral puts its digits on the tape. *)
Lemma loaded_bits (m : Machine) w s0 :
  w ≠ [] → loaded m (bits_string w) s0 = mkRunState (bit_cells w) 0 (initial_state m) 0.
Proof.
  intros Hw. destruct w as [|b w]; [done|].
  unfold loaded. simpl. rewrite bits_string_cons. simpl.
  rewrite chars_bits_string. by destruct b.
Qed.

(** A non-empty numeral ends in a digit, which is no blank character. *)
Lemma bits_string_ends_in_digit w :
  w ≠ [] → ∃ body c, bits_string w = (body ++ String c "")%string ∧
                      PyStr.char_in c "_" = false.
Proof.
  intros Hw. destruct (exists_last Hw) as (w' & b & ->).
  exists (bits_string w'), (if b then "1"%char else "0"%char).
  split; [|by destruct b].
  unfold bits_string. rewrite bit_cells_app, join_app. by destruct b.
Qed.

(** Digits followed by one blank cell render as the digits. *)
Lemma tape_string_bits (m : Machine) w h q n :
  blank_symbol m = "_" → w ≠ [] →
  get_tape_string m (mkRunState (bit_cells w ++ ["_"]) h q n) = bits_string w.
Proof.
  intros Hblank Hw. unfold get_tape_string. simpl. rewrite Hblank.
  rewrite join_app.
  rewrite rstrip_app_in by (apply (all_chars_in_self "_")).
  destruct (bits_string_ends_in_digit w Hw) as (body & c & Heq & Hc).
  fold (bits_string w). rewrite Heq, rstrip_ends_outside by done.
  by destruct body.
Qed.

Lemma value_lsb_incr l : value_lsb (incr_lsb l) = value_lsb l + 1.
Proof.
  induction l as [|b l IH]; [done|].
  destruct b; simpl; [rewrite IH|]; lia.
Qed.

Lemma incr_lsb_nonempty l : incr_lsb l ≠ [].
Proof. by destruct l as [|[] l]. Qed.

Lemma length_incr_lsb l :
  (length l <= length (incr_lsb l) <= S (length l))%nat.
Proof. induction l as [|[] l IH]; simpl; lia. Qed.
End Numerals.

(** ** The binary-increment machine *)

Section BinaryIncrement.
Implicit Types (pre z : list string) (rest l : list bool) (n : Z).

(** [seek_end] walks right over the digits and turns round on the blank
    cell it appends. *)
Lemma seek_end_phase rest pre n :
  runs_true binary_increment (S (length rest))
    (mkRunState (pre ++ bit_cells rest) (Z.of_nat (length pre)) "seek_end" n)
    (mkRunState (pre ++ bit_cells rest ++ ["_"])
       (Z.of_nat (length pre) + Z.of_nat (length rest) - 1) "carry"
       (n + Z.of_nat (length rest) + 1)).
Proof.
  revert pre n. induction rest as [|b rest IH]; intros pre n.
  - simpl. rewrite app_nil_r. apply runs_true_one.
    rewrite (step_past_end binary_increment pre _ "seek_end" n "carry" "_" "L");
      [|done|compute_done|compute_done|reflexivity].
    unfold head_offset. simpl. do 2 f_equal; lia.
  - eapply runs_true_S.
    + apply (step_on_cell binary_increment pre (bit_symbol b) (bit_cells rest)
               _ "seek_end" n "seek_end" (bit_symbol b) "R");
        [done|compute_done|compute_done|by destruct b].
    + specialize (IH (pre ++ [bit_symbol b])%list (n + 1)).
      rewrite <- !app_assoc in IH. simpl in IH.
      rewrite length_app in IH. simpl in IH.
      unfold head_offset. simpl.
      replace (Z.of_nat (length pre) + 1)
        with (Z.of_nat (length pre + 1)) by lia.
      unfold runs_true in *. rewrite IH. do 2 f_equal; lia.
Qed.

(** [carry] walks left over the ones, turning them into zeros, and puts a
    one on the first zero or in front of the tape.  The digits at and left
    of the head are [l], least significant first; [z] is the rest of the
    tape. *)
Lemma carry_phase l z n :
  ∃ k h,
    (k <= S (length l))%nat ∧
    runs_true binary_increment k
      (mkRunState (bit_cells (rev l) ++ z) (Z.of_nat (length l) - 1) "carry" n)
      (mkRunState (bit_cells (rev (incr_lsb l)) ++ z) h "done" (n + Z.of_nat k)) ∧
    0 <= h < Z.of_nat (length (bit_cells (rev (incr_lsb l)) ++ z)).
Proof.
  revert z n. induction l as [|b l IH]; intros z n.
  - exists 1%nat, 0. split; [simpl; lia|]. split; [|simpl; lia].
    apply runs_true_one. simpl.
    by rewrite (step_before_start binary_increment z _ "carry" n "done" "1" "N");
      [|done|compute_done|compute_done|reflexivity].
  - destruct b.
    + destruct (IH ("0" :: z) (n + 1)) as (k & h & Hk & Hrun & Hh).
      exists (S k), h. split; [simpl; lia|]. split.
      * eapply runs_true_S.
        -- simpl. rewrite bit_cells_app, <- app_assoc. simpl.
           apply (step_on_cell binary_increment (bit_cells (rev l)) "1" z
                    _ "carry" n "carry" "0" "L");
             [rewrite length_bit_cells, length_rev; lia
             |compute_done|compute_done|reflexivity].
        -- simpl. rewrite bit_cells_app, <- app_assoc. simpl.
           unfold head_offset. simpl.
           replace (Z.of_nat (S (length l)) - 1 + -1)
             with (Z.of_nat (length l) - 1) by lia.
           unfold runs_true in *. rewrite Hrun. do 2 f_equal; lia.
      * simpl. rewrite bit_cells_app, <- app_assoc. simpl. exact Hh.
    + exists 1%nat, (Z.of_nat (length l)). split; [simpl; lia|]. split.
      * apply runs_true_one. simpl. rewrite !bit_cells_app, <- !app_assoc. simpl.
        rewrite (step_on_cell binary_increment (bit_cells (rev l)) "0" z
                   _ "carry" n "done" "1" "N");
          [|rewrite length_bit_cells, length_rev; lia
           |compute_done|compute_done|reflexivity].
        unfold head_offset. simpl. do 2 f_equal; lia.
      * simpl. rewrite bit_cells_app, !length_app, length_bit_cells, length_rev.
        simpl. lia.
Qed.
End BinaryIncrement.

(** X13. The binary-increment machine adds one.  On every non-empty binary
    numeral [w], with a budget of at least twice its length plus 2, [run]
    accepts and the rendering of the final tape is the numeral of the value
    of [w] plus one; at most [2 * len(w) + 2] steps are counted. *)
Theorem binary_increment_adds_one (w : list bool) (max_steps : Z) (s0 : RunState) :
  w ≠ [] → 2 * Z.of_nat (length w) + 2 <= max_steps →
  ∃ n s,
    run binary_increment (bits_string w) max_steps s0
      = Some (Returned (true, n, bits_string (increment w)) s) ∧
    n <= 2 * Z.of_nat (length w) + 2 ∧
    bits_value (increment w) = bits_value w + 1.
Proof.
  intros Hw Hmax.
  destruct (carry_phase (rev w) ["_"] (Z.of_nat (length w) + 1))
    as (k & h & Hk & Hcarry & Hh).
  rewrite length_rev in Hk.
  fold (increment w) in Hcarry, Hh.
  set (final := mkRunState (bit_cells (increment w) ++ ["_"]) h "done"
                  (Z.of_nat (length w) + 1 + Z.of_nat k)) in *.
  assert (Htrace : runs_true binary_increment (1 + (length w + k))
                     (loaded binary_increment (bits_string w) s0) final).
  { rewrite (loaded_bits binary_increment w s0 Hw).
    destruct w as [|b w']; [done|]. clear Hw.
    apply (runs_true_trans binary_increment 1 _ _
             (mkRunState ([bit_symbol b] ++ bit_cells w') 1 "seek_end" 1)).
    { apply runs_true_one.
      apply (step_on_cell binary_increment [] (bit_symbol b) (bit_cells w')
               0 "start" 0 "seek_end" (bit_symbol b) "R");
        [done|compute_done|compute_done|by destruct b]. }
    apply (runs_true_trans binary_increment _ _ _
             (mkRunState ([bit_symbol b] ++ bit_cells w' ++ ["_"])
                (Z.of_nat (length (rev (b :: w'))) - 1) "carry"
                (Z.of_nat (length (b :: w')) + 1))).
    - apply (runs_true_cast binary_increment _ _ _ _ _ _
               (seek_end_phase w' [bit_symbol b] 1)); [done|done|].
      rewrite length_rev. simpl length. f_equal; lia.
    - rewrite rev_involutive in Hcarry. exact Hcarry. }
  assert (Hne : increment w ≠ []).
  { unfold increment. intros Hnil. apply (f_equal (@rev bool)) in Hnil.
    rewrite rev_involutive in Hnil. by apply incr_lsb_nonempty in Hnil. }
  exists (Z.of_nat (1 + (length w + k))), final. split_and!.
  - rewrite (run_to_halted binary_increment _ max_steps s0 _ final Htrace);
      [|left; compute_done|exact Hh|lia].
    unfold final. by rewrite tape_string_bits.
  - lia.
  - unfold bits_value, increment. rewrite rev_involutive. apply value_lsb_incr.
Qed.

Lemma binary_increment_adds_one_witness :
  ∃ n s,
    run binary_increment (bits_string [true; false; true; true]) default_max_steps
        (init binary_increment)
      = Some (Returned (true, n, bits_string (increment [true; false; true; true])) s) ∧
    n <= 2 * Z.of_nat (length [true; false; true; true]) + 2 ∧
    bits_value (increment [true; false; true; true])
    = bits_value [true; false; true; true] + 1.
Proof.
  apply binary_increment_adds_one; [done|].
  unfold default_max_steps. simpl. lia.
Defined.

(** ** The palindrome-checker machine *)

Section PalindromeChecker.
Implicit Types (pre z : list string) (rest mid : list bool) (n : Z) (cur : string).

(** [check_0] and [check_1] both walk right over the digits and turn into
    [move_left] on the blank cell they append. *)
Lemma check_phase cur rest pre n :
  cur = "check_0" ∨ cur = "check_1" →
  runs_true palindrome_checker (S (length rest))
    (mkRunState (pre ++ bit_cells rest) (Z.of_nat (length pre)) cur n)
    (mkRunState (pre ++ bit_cells rest ++ ["_"])
       (Z.of_nat (length pre) + Z.of_nat (length rest) - 1) "move_left"
       (n + Z.of_nat (length rest) + 1)).
Proof.
  intros Hcur. revert pre n. induction rest as [|b rest IH]; intros pre n.
  - simpl. rewrite app_nil_r. apply runs_true_one.
    rewrite (step_past_end palindrome_checker pre _ cur n "move_left" "_" "L");
      [|done|destruct Hcur as [->| ->]; compute_done
       |destruct Hcur as [->| ->]; compute_done
       |by destruct Hcur as [->| ->]].
    unfold head_offset. simpl. do 2 f_equal; lia.
  - eapply runs_true_S.
    + apply (step_on_cell palindrome_checker pre (bit_symbol b) (bit_cells rest)
               _ cur n cur (bit_symbol b) "R");
        [done|destruct Hcur as [->| ->]; compute_done
        |destruct Hcur as [->| ->]; compute_done
        |by destruct Hcur as [->| ->], b].
    + apply (runs_true_cast palindrome_checker _ _ _ _ _ _
               (IH (pre ++ [bit_symbol b])%list (n + 1))); [done| |].
      * rewrite <- app_assoc, length_app. simpl. unfold head_offset. simpl.
        f_equal. lia.
      * rewrite <- app_assoc, length_app. simpl. f_equal; lia.
Qed.

(** [move_right] walks left over digits and marks alike, off the left end
    of the tape, and changes nothing. *)
Lemma move_right_phase pre z n :
  Forall (λ x, x ∈ ["0"; "1"; "X"]) pre →
  runs_true palindrome_checker (length pre)
    (mkRunState (pre ++ z) (Z.of_nat (length pre) - 1) "move_right" n)
    (mkRunState (pre ++ z) (-1) "move_right" (n + Z.of_nat (length pre))).
Proof.
  revert z n. induction pre as [|x pre IH] using rev_ind; intros z n Hpre.
  - simpl. apply (runs_true_cast palindrome_checker _ _ _ _ _ _
                    (runs_true_O palindrome_checker
                       (mkRunState z (-1) "move_right" n))); [done|done|].
    f_equal. lia.
  - apply Forall_app in Hpre as [Hpre Hx]. apply Forall_cons in Hx as [Hx _].
    rewrite length_app. simpl length.
    replace (length pre + 1)%nat with (S (length pre)) by lia.
    eapply runs_true_S.
    + rewrite <- app_assoc. simpl.
      apply (step_on_cell palindrome_checker pre x z _ "move_right" n "move_right" x "L");
        [lia|compute_done|compute_done|].
      apply elem_of_cons in Hx as [->|Hx]; [done|].
      apply elem_of_cons in Hx as [->|Hx]; [done|].
      apply elem_of_cons in Hx as [->|Hx]; [done|by apply elem_of_nil in Hx].
    + apply (runs_true_cast palindrome_checker _ _ _ _ _ _
               (IH (x :: z) (n + 1) Hpre)); [done| |].
      * unfold head_offset. simpl. f_equal. lia.
      * rewrite <- app_assoc. simpl. f_equal. lia.
Qed.

Lemma bit_cells_marked mid :
  Forall (λ x, x ∈ ["0"; "1"; "X"]) ("X" :: bit_cells mid).
Proof.
  apply Forall_cons. split; [compute_done|].
  apply Forall_forall. intros x (b & -> & _)%list_elem_of_fmap.
  destruct b; compute_done.
Qed.

(** An input of two digits or more: 2 * len + 3 successful steps lead to
    the accepting state, whatever the digits are. *)
Lemma palindrome_trace_long a mid c s0 :
  ∃ final,
    runs_true palindrome_checker (2 * length (a :: mid ++ [c]) + 3)
      (loaded palindrome_checker (bits_string (a :: mid ++ [c])) s0) final ∧
    current_state final = "accept" ∧ head_on_tape final.
Proof.
  set (cur := if a then "check_1" else "check_0").
  assert (Hcur : cur = "check_0" ∨ cur = "check_1") by (destruct a; [by right|by left]).
  exists (mkRunState (["_"] ++ "X" :: bit_cells mid ++ ["X"; "_"]) 1 "accept"
            (Z.of_nat (2 * length (a :: mid ++ [c]) + 3))).
  split; [|split; [done|unfold head_on_tape; simpl; lia]].
  rewrite (loaded_bits palindrome_checker _ s0) by done.
  simpl length. rewrite length_app. simpl length.
  apply (runs_true_cast palindrome_checker
           (1 + (S (length (mid ++ [c])) + (1 + (length ("X" :: bit_cells mid) + (1 + 1)))))
           _ (mkRunState ([] ++ bit_symbol a :: bit_cells (mid ++ [c])) 0 "start" 0) _
           (mkRunState (["_"] ++ "X" :: bit_cells mid ++ ["X"; "_"]) (1 + head_offset "N")
              "accept"
              (1 + Z.of_nat (length (mid ++ [c])) + 1 + 1
               + Z.of_nat (length ("X" :: bit_cells mid)) + 1 + 1)));
    [|simpl; rewrite length_app, length_bit_cells; simpl; lia|done
     |simpl; rewrite !length_app, length_bit_cells; simpl; f_equal; lia].
  eapply runs_true_trans.
  { apply runs_true_one.
    apply (step_on_cell palindrome_checker [] (bit_symbol a) _ 0 "start" 0 cur "X" "R");
      [done|compute_done|compute_done|by destruct a]. }
  eapply runs_true_trans.
  { apply (runs_true_cast palindrome_checker _ _ _ _ _ _
             (check_phase cur (mid ++ [c]) ["X"] 1 Hcur)); [done|done|reflexivity]. }
  eapply runs_true_trans.
  { apply runs_true_one. rewrite bit_cells_app. simpl.
    replace ("X" :: (bit_cells mid ++ [bit_symbol c]) ++ ["_"])%list
      with (("X" :: bit_cells mid) ++ bit_symbol c :: ["_"])%list
      by (simpl; by rewrite <- app_assoc).
    apply (step_on_cell palindrome_checker ("X" :: bit_cells mid) (bit_symbol c) ["_"]
             _ "move_left" _ "move_right" "X" "L");
      [simpl; rewrite length_app, length_bit_cells; simpl; lia
      |compute_done|compute_done|by destruct c]. }
  eapply runs_true_trans.
  { apply (runs_true_cast palindrome_checker _ _ _ _ _ _
             (move_right_phase ("X" :: bit_cells mid) ["X"; "_"]
                (1 + Z.of_nat (length (mid ++ [c])) + 1 + 1) (bit_cells_marked mid)));
      [done| |reflexivity].
    unfold head_offset. simpl. rewrite length_app, length_bit_cells. simpl.
    f_equal. lia. }
  eapply runs_true_trans.
  { apply runs_true_one.
    apply (step_before_start palindrome_checker _ (-1) "move_right" _ "start" "_" "R");
      [lia|compute_done|compute_done|reflexivity]. }
  apply runs_true_one.
  apply (step_on_cell palindrome_checker ["_"] "X" (bit_cells mid ++ ["X"; "_"])
           _ "start" _ "accept" "X" "N");
    [reflexivity|compute_done|compute_done|reflexivity].
Qed.
End PalindromeChecker.

(** The verdict on a non-empty binary input, given budget for the whole
    run. *)
Lemma palindrome_checker_verdict_aux (w : list bool) (max_steps : Z) (s0 : RunState) :
  w ≠ [] → 2 * Z.of_nat (length w) + 3 <= max_steps →
  ∃ n final_tape s,
    run palindrome_checker (bits_string w) max_steps s0
    = Some (Returned (bool_decide (2 <= length w)%nat, n, final_tape) s).
Proof.
  intros Hw Hmax. destruct w as [|a w']; [done|]. clear Hw.
  destruct (decide (w' = [])) as [->|Hw'].
  - simpl in Hmax. rewrite bool_decide_eq_false_2 by (simpl; lia).
    destruct a.
    + erewrite (run_to_break palindrome_checker _ max_steps s0 3);
        [|reflexivity|reflexivity|lia].
      by eexists _, _, _.
    + erewrite (run_to_break palindrome_checker _ max_steps s0 3);
        [|reflexivity|reflexivity|lia].
      by eexists _, _, _.
  - destruct (exists_last Hw') as (mid & c & ->).
    destruct (palindrome_trace_long a mid c s0) as (final & Htrace & Hstate & Hon).
    rewrite (run_to_halted palindrome_checker _ max_steps s0 _ final Htrace);
      [|left; rewrite Hstate; compute_done|exact Hon|lia].
    rewrite Hstate.
    rewrite (bool_decide_eq_true_2 (2 <= _)%nat)
      by (simpl; rewrite length_app; simpl; lia).
    by eexists _, _, _.
Qed.

(** X14. The verdict of the palindrome-checker table depends on nothing but
    the length of its input.  On every non-empty binary input, with a budget
    of at least twice its length plus 3, [run] accepts when the input has
    two digits or more, palindrome or not, and rejects when it has one
    digit. *)
Theorem palindrome_checker_verdict (w : list bool) (max_steps : Z) (s0 : RunState) :
  w ≠ [] → 2 * Z.of_nat (length w) + 3 <= max_steps →
  ∃ n final_tape s,
    run palindrome_checker (bits_string w) max_steps s0
    = Some (Returned (bool_decide (2 <= length w)%nat, n, final_tape) s).
Proof. apply palindrome_checker_verdict_aux. Qed.

Lemma palindrome_checker_verdict_witness :
  ∃ n final_tape s,
    run palindrome_checker (bits_string [true; false]) default_max_steps
        (init palindrome_checker)
    = Some (Returned (bool_decide (2 <= length [true; false])%nat, n, final_tape) s).
Proof.
  apply palindrome_checker_verdict; [done|].
  unfold default_max_steps. simpl. lia.
Defined.

(** ** The self-test of the palindrome checker *)

Section SelfTest.
Implicit Types (w : list bool).

Lemma list_ascii_of_bits w :
  list_ascii_of_string (bits_string w)
  = map (λ b : bool, if b then "1"%char else "0"%char) w.
Proof.
  induction w as [|b w IH]; [done|].
  rewrite bits_string_cons. simpl. by rewrite IH.
Qed.

Lemma bits_of_list_ascii w :
  string_of_list_ascii (map (λ b : bool, if b then "1"%char else "0"%char) w)
  = bits_string w.
Proof.
  induction w as [|b w IH]; [done|].
  rewrite bits_string_cons. simpl. by rewrite IH.
Qed.

Lemma str_reverse_bits w : str_reverse (bits_string w) = bits_string (rev w).
Proof.
  unfold str_reverse. by rewrite list_ascii_of_bits, <- map_rev, bits_of_list_ascii.
Qed.

Lemma bits_string_inj w v : bits_string w = bits_string v → w = v.
Proof.
  revert v. induction w as [|b w IH]; intros [|c v]; rewrite ?bits_string_cons;
    try done.
  intros [= Hb Hw]. f_equal; [by destruct b, c|by apply IH].
Qed.

Lemma is_palindrome_bits w :
  is_palindrome (bits_string w) = bool_decide (w = rev w).
Proof.
  unfold is_palindrome. rewrite str_reverse_bits.
  apply bool_decide_ext. split; [apply bits_string_inj|by intros <-].
Qed.
End SelfTest.

(** X15. The self-test in [example_palindrome_checker] compares the verdict
    with [test == test[::-1]].  On every binary input of 1 to 4998 digits
    (so that the default budget suffices) it reports [CORRECT] exactly when
    "has two digits or more" and "is a palindrome" agree: every one-digit
    input and every input that is not a palindrome is reported [WRONG]. *)
Theorem self_test_status_spec (w : list bool) (s0 : RunState) :
  w ≠ [] → (length w <= 4998)%nat →
  ∃ s, self_test_status (bits_string w) s0
       = Some (Returned
                 (Bool.eqb (bool_decide (2 <= length w)%nat) (bool_decide (w = rev w))) s).
Proof.
  intros Hw Hlen.
  destruct (palindrome_checker_verdict_aux w default_max_steps s0 Hw)
    as (n & final_tape & s & Hrun); [unfold default_max_steps; lia|].
  exists s. unfold self_test_status. by rewrite Hrun, is_palindrome_bits.
Qed.

Lemma self_test_status_spec_witness :
  ∃ s, self_test_status (bits_string [true; true; false; true]) (init palindrome_checker)
       = Some (Returned
                 (Bool.eqb (bool_decide (2 <= length [true; true; false; true])%nat)
                    (bool_decide ([true; true; false; true]
                                  = rev [true; true; false; true]))) s).
Proof. apply self_test_status_spec; [done|simpl; lia]. Defined.

(** The statuses the self-test prints for its own list of test cases:
    [WRONG] for ["1"] and ["1101"]. *)
Lemma self_test_on_test_cases (s0 : RunState) :
  map (λ test, match self_test_status test s0 with
               | Some (Returned status _) => Some status
               | _ => None
               end) palindrome_test_cases
  = [Some false; Some true; Some true; Some true; Some false; Some true; Some true].
Proof. vm_compute. reflexivity. Qed.

(** ** Boundary extension and rendering *)

Section ExtensionRendering.
Implicit Types (s b set : string).

Lemma rstrip_empty_iff s set : PyStr.rstrip s set = "" ↔ all_chars_in s set.
Proof.
  split; [|apply rstrip_all_in].
  destruct (rstrip_spec s set) as (suffix & Heq & Hsuf & _).
  intros Hr. rewrite Hr in Heq. by rewrite Heq.
Qed.

(** A prefix is kept whole when something is left behind it. *)
Lemma rstrip_prefix b s set :
  PyStr.rstrip s set ≠ "" →
  PyStr.rstrip (b ++ s) set = (b ++ PyStr.rstrip s set).
Proof.
  intros Hs. induction b as [|c b IH]; [done|].
  rewrite !append_cons, rstrip_cons, IH.
  destruct (b ++ PyStr.rstrip s set) eqn:Hb; [|done].
  destruct b; [done|by rewrite append_cons in Hb].
Qed.
End ExtensionRendering.

(** X16. What the boundary extension of [step] does to the rendering.  An
    extension at the right end does not show: with the head at 0 or above
    the rendering is unchanged.  An extension at the left end shows: with a
    negative head, and a tape holding some character that does not occur in
    the blank symbol, the rendering gains the blank symbol in front. *)
Theorem extension_in_rendering (m : Machine) (s : RunState) :
  (0 <= head_position s →
   get_tape_string m (extend_tape m s) = get_tape_string m s) ∧
  (head_position s < 0 →
   ¬ all_chars_in (PyStr.join (tape s)) (blank_symbol m) →
   get_tape_string m (extend_tape m s)
   = (blank_symbol m ++ get_tape_string m s)%string).
Proof.
  split.
  - intros Hh. unfold extend_tape. rewrite bool_decide_eq_false_2 by lia.
    case_bool_decide; [|done].
    apply (tape_string_app_blanks m s 1).
  - intros Hh Hnot. unfold extend_tape. rewrite bool_decide_eq_true_2 by lia.
    assert (Hr : PyStr.rstrip (PyStr.join (tape s)) (blank_symbol m) ≠ "").
    { by rewrite rstrip_empty_iff. }
    unfold get_tape_string. cbn [tape set_head_position set_tape PyStr.join].
    rewrite rstrip_prefix by done.
    destruct (PyStr.rstrip (PyStr.join (tape s)) (blank_symbol m)) eqn:Hj; [done|].
    destruct (blank_symbol m); [done|by rewrite append_cons].
Qed.
